(** * ecr-mirror: a shallow embedding of [ecr_mirror/__init__.py]

    The program mirrors public container images into ECR repositories.  Its
    logic is: discover the repositories that carry an [upstream-image]
    resource tag ([find_repositories]), list the upstream tags of each image
    and keep the ones selected by glob patterns ([find_tags_to_copy]), and run
    one [skopeo copy] per selected tag ([copy_repositories], [copy_image]).

    Python [str] values are modelled as [string]; the [tags_dict] dictionary
    as a [gmap string string]; exceptions as a [result] type; the calls to
    AWS, to the [skopeo] subprocess, to the terminal and to the clock are
    recorded in a trace of [event]s, their answers being given by oracles.
    The group callback [cli] (lines 48-72) builds the [Context] that a
    command receives; the commands are modelled from there. *)

From Stdlib Require Import ZArith Ascii DecimalString.
From Stdlib Require String.
From stdpp Require Import base option list gmap strings.

(** ** Python string primitives *)

Module PyStr.

(** [s.replace(old, new)] for one-character [old] and [new]. *)
Fixpoint replace (old new : ascii) (s : string) : string :=
  match s with
  | EmptyString => EmptyString
  | String c s' =>
      String (if Ascii.eqb c old then new else c) (replace old new s')
  end.

(** [s.split(sep)] for a one-character separator: the fields between the
    occurrences of [sep]; there is always at least one field, so the empty
    string splits into one empty field. *)
Fixpoint split (sep : ascii) (s : string) : list string :=
  match s with
  | EmptyString => [EmptyString]
  | String c s' =>
      if Ascii.eqb c sep then EmptyString :: split sep s'
      else match split sep s' with
           | [] => [String c EmptyString]
           | field :: fields => String c field :: fields
           end
  end.

(** [s.count(c)]. *)
Fixpoint count (c : ascii) (s : string) : nat :=
  match s with
  | EmptyString => 0
  | String c' s' => (if Ascii.eqb c' c then 1 else 0) + count c s'
  end.

(** [sep.join(words)]. *)
Fixpoint join (sep : string) (words : list string) : string :=
  match words with
  | [] => EmptyString
  | [word] => word
  | word :: rest => word +:+ sep +:+ join sep rest
  end.

(** [s[n:]]. *)
Fixpoint drop (n : nat) (s : string) : string :=
  match n, s with
  | O, _ => s
  | S _, EmptyString => EmptyString
  | S n', String _ s' => drop n' s'
  end.

(** [str(n)] for an [int]. *)
Definition of_Z (n : Z) : string := NilEmpty.string_of_int (Z.to_int n).

End PyStr.

(** ** The library function [fnmatch.fnmatch]

    [fnmatch.fnmatch(name, pat)] compiles [pat] to a regular expression and
    matches the whole of [name] against it.  On POSIX the case normalisation
    it starts with is the identity.  The model keeps the pattern language:
    [*] matches any run of characters, [?] one character, [[seq]] one
    character of [seq], [[!seq]] one character not in [seq], and a [[] that
    no []] closes is an ordinary character, as is every other character.
    (The library merges consecutive stars and compiles the stars to atomic
    groups; neither changes which names a pattern matches.) *)

Module Fnmatch.

Inductive item :=
  | Star
  | AnyChar
  | Lit (c : ascii)
  | Class (negated : bool) (ranges : list (ascii * ascii)).

(** The body of a bracket expression: [lo-hi] is a range when a character
    follows the hyphen, anything else stands for itself. *)
Fixpoint ranges_of (body : list ascii) : list (ascii * ascii) :=
  match body with
  | [] => []
  | lo :: rest =>
      match rest with
      | "-"%char :: hi :: rest' => (lo, hi) :: ranges_of rest'
      | _ => (lo, lo) :: ranges_of rest
      end
  end.

Definition class_of (stuff : list ascii) : item :=
  match stuff with
  | "!"%char :: body => Class true (ranges_of body)
  | _ => Class false (ranges_of stuff)
  end.

(** Index of the first []] of [s]. *)
Fixpoint index_close (s : list ascii) : option nat :=
  match s with
  | [] => None
  | c :: s' => if Ascii.eqb c "]" then Some 0 else S <$> index_close s'
  end.

(** The scan that follows a [[]: a leading [!] and then a leading []] belong
    to the expression; it ends at the next []].  The answer is the index [j]
    of the closing bracket in [s], when there is one. *)
Definition close_bracket (s : list ascii) : option nat :=
  let j := match s with "!"%char :: _ => 1 | _ => 0 end in
  let j := match List.skipn j s with "]"%char :: _ => S j | _ => j end in
  (fun k => j + k) <$> index_close (List.skipn j s).

(** [translate]: the loop over the pattern.  After a bracket expression the
    loop resumes behind its closing bracket; [skip] counts the characters
    still to pass over. *)
Fixpoint translate_from (skip : nat) (pat : list ascii) : list item :=
  match pat with
  | [] => []
  | c :: rest =>
      match skip with
      | S skip' => translate_from skip' rest
      | O =>
          if Ascii.eqb c "*" then Star :: translate_from 0 rest
          else if Ascii.eqb c "?" then AnyChar :: translate_from 0 rest
          else if Ascii.eqb c "[" then
            match close_bracket rest with
            | Some j => class_of (List.firstn j rest) :: translate_from (S j) rest
            | None => Lit c :: translate_from 0 rest
            end
          else Lit c :: translate_from 0 rest
      end
  end.

Definition translate (pat : string) : list item :=
  translate_from 0 (String.list_ascii_of_string pat).

Definition in_range (c : ascii) (r : ascii * ascii) : bool :=
  (nat_of_ascii r.1 <=? nat_of_ascii c)%nat && (nat_of_ascii c <=? nat_of_ascii r.2)%nat.

(** One character against one item other than [Star]. *)
Definition item_match (i : item) (c : ascii) : bool :=
  match i with
  | Star => true
  | AnyChar => true
  | Lit c' => Ascii.eqb c c'
  | Class negated ranges => xorb negated (existsb (in_range c) ranges)
  end.

(** The whole of [name] against the items; [Star] tries every suffix. *)
Fixpoint matches (items : list item) (name : list ascii) : bool :=
  match items with
  | [] => match name with [] => true | _ => false end
  | Star :: items' =>
      (fix star (name : list ascii) : bool :=
         matches items' name
         || match name with [] => false | _ :: name' => star name' end) name
  | i :: items' =>
      match name with
      | [] => false
      | c :: name' => item_match i c && matches items' name'
      end
  end.

Definition fnmatch (name pat : string) : bool :=
  matches (translate pat) (String.list_ascii_of_string name).

(** The characters that are not special in a pattern. *)
Definition literal_char (c : ascii) : bool :=
  negb (Ascii.eqb c "*") && negb (Ascii.eqb c "?") && negb (Ascii.eqb c "[").

End Fnmatch.

(** ** Exceptions, the trace of external calls, and the monad over them *)

Inductive exn :=
  | CalledProcessError (returncode : Z) (cmd : list string) (output : string)
  | ValueError
  | OtherError (what : string).

Inductive result (A : Type) :=
  | Ok (a : A)
  | Raise (e : exn).
Arguments Ok {A} a.
Arguments Raise {A} e.

(** What the program does to the outside world, in program order. *)
Inductive event :=
  | Echo (message : string)
  | GetAuthorizationToken (registryIds : list string)
  | DescribeRepositories (registryId : string)
  | ListTagsForResource (resourceArn : string)
  | CheckOutput (cmd : list string)
  | Sleep (seconds : Z).

(** A computation extends the trace and returns a value or raises. *)
Definition M (A : Type) : Type := list event -> result A * list event.

Definition ret {A} (a : A) : M A := fun t => (Ok a, t).
Definition raise {A} (e : exn) : M A := fun t => (Raise e, t).
Definition bind {A B} (c : M A) (k : A -> M B) : M B :=
  fun t => match c t with
           | (Ok a, t') => k a t'
           | (Raise e, t') => (Raise e, t')
           end.
Definition emit (ev : event) : M unit := fun t => (Ok tt, t ++ [ev]).
(** An external call: the request is recorded, the oracle's answer returned. *)
Definition call {A} (ev : event) (answer : result A) : M A :=
  fun t => (answer, t ++ [ev]).

Notation "'let!' x ':=' c 'in' k" := (bind c (fun x => k))
  (at level 10, x name, c at level 100, k at level 200, only parsing).
Notation "'do!' c 'in' k" := (bind c (fun _ => k))
  (at level 10, c at level 100, k at level 200, only parsing).

(** [try: body except subprocess.CalledProcessError as e: handler]; any other
    exception passes through. *)
Definition try_except {A} (body : M A) (handler : Z -> string -> M A) : M A :=
  fun t => match body t with
           | (Raise (CalledProcessError returncode _ output), t') =>
               handler returncode output t'
           | outcome => outcome
           end.

(** [ThreadPoolExecutor.map(f, xs)] when the iterator it returns is dropped
    (line 147): every element is submitted at once, nothing is cancelled and
    the [with] block waits until every task has run to its end; a task's
    exception stays in its future.  The trace lists the tasks' events in
    submission order (the interleaving of the worker threads is not
    modelled). *)
Fixpoint pool_map {A B} (f : A -> M B) (xs : list A) : M (list (result B)) :=
  match xs with
  | [] => ret []
  | x :: xs' =>
      fun t =>
        let (future, t1) := f x t in
        (let! futures := pool_map f xs' in ret (future :: futures)) t1
  end.

(** [ThreadPoolExecutor.map(f, xs)] when a loop takes the results from the
    iterator (lines 249-252).  Every element is submitted at once; the
    workers take the tasks in the order of submission, and the iterator
    hands the results over in that order.  When it reaches a result that
    raises, it cancels the tasks that no worker has started yet: by then the
    workers have started [ahead] of the tasks that follow (or all of them,
    when fewer remain), and those run to their end.  How far the workers are
    ahead is up to the scheduler, so [ahead] is a parameter.  The answer is
    the futures of the tasks that ran.  The trace lists their events in
    submission order, before the events of the loop that takes the results
    (the interleaving of the worker threads with each other and with that
    loop is not modelled). *)
Fixpoint pool_results {A B} (ahead : nat) (f : A -> M B) (xs : list A)
    : M (list (result B)) :=
  match xs with
  | [] => ret []
  | x :: xs' =>
      fun t =>
        let (future, t1) := f x t in
        let others := match future with
                      | Ok _ => pool_results ahead f xs'
                      | Raise _ => pool_map f (firstn ahead xs')
                      end in
        (let! futures := others in ret (future :: futures)) t1
  end.

(** ** The data model (lines 18-31) *)

(** The fields that the program reads of a repository of the listing and of
    a resource tag. *)
Record Repository := { repositoryArn : string; repositoryUri : string }.
Record TagItem := { Key : string; Value : string }.

(** The ECR client: the three operations the program calls.  The oracle of
    [get_authorization_token] answers with the decoded [username:password]
    pair ([ecr_login] base64-decodes the token of the response); the one of
    [describe_repositories] with the pages of the paginator. *)
Record ECRClient := {
  get_authorization_token : list string -> result string;
  describe_repositories : string -> result (list (list Repository));
  list_tags_for_resource : string -> result (list TagItem);
}.

Record Context := {
  client : ECRClient;
  registry_id : string;
  override_os : string;
  override_arch : string;
}.

Record MirroredRepo := {
  upstream_image : string;
  repository_uri : string;
  upstream_tags : list string;
  ignore_tags : list string;
}.

(** The [skopeo] subprocess.  [skopeo_list_tags cmd] is
    [json.loads(subprocess.check_output(cmd))["Tags"]]: the tag listing, or
    the exception of a failed run or of an output that is not such a JSON
    object.  [skopeo_copy cmd] is the exit status and the captured output of
    the run. *)
Record Skopeo := {
  skopeo_list_tags : list string -> result (list string);
  skopeo_copy : list string -> Z * string;
}.

(** ** Terminal output: [click.style] and the [repr] of [bytes] *)

Definition esc : string := String (ascii_of_nat 27) "[".
Definition green := "32".
Definition blue := "34".
Definition red := "31".

(** [click.style(text, fg=colour)]. *)
Definition style (fg text : string) : string :=
  esc +:+ fg +:+ "m" +:+ text +:+ esc +:+ "0m".

(** [click.secho(message, fg=colour)]. *)
Definition secho (message fg : string) : M unit := emit (Echo (style fg message)).

Definition hex_digit (n : nat) : ascii :=
  ascii_of_nat (if (n <? 10)%nat then 48 + n else 87 + n).

Definition quote : ascii := "'"%char.
Definition dquote : ascii := ascii_of_nat 34.
Definition backslash : ascii := ascii_of_nat 92.

Definition repr_byte (q c : ascii) : string :=
  let n := nat_of_ascii c in
  if Ascii.eqb c q || Ascii.eqb c backslash then String backslash (String c "")
  else if (n =? 9)%nat then String backslash "t"
  else if (n =? 10)%nat then String backslash "n"
  else if (n =? 13)%nat then String backslash "r"
  else if (n <? 32)%nat || (127 <=? n)%nat then
    String backslash (String "x" (String (hex_digit (n / 16)) (String (hex_digit (n mod 16)) "")))
  else String c "".

(** [repr(b)] of a [bytes] value, which is what an f-string prints. *)
Definition repr_bytes (b : string) : string :=
  let q := if (0 <? PyStr.count quote b)%nat && (PyStr.count dquote b =? 0)%nat
           then dquote else quote in
  "b" +:+ String q (String.concat "" (map (repr_byte q) (String.list_ascii_of_string b)))
      +:+ String q "".

(** ** The program *)

Section Program.

(** The [skopeo] binary that [subprocess] runs. *)
Variable skopeo : Skopeo.

(** [ecr_login] (lines 119-126). *)
Definition ecr_login (client : ECRClient) (registry_id : string) : M string :=
  call (GetAuthorizationToken [registry_id])
       (get_authorization_token client [registry_id]).

(** The command line of [copy_image] without the credentials ([args]). *)
Definition copy_args (ctx : Context) (source_image dest_image : string) : list string :=
  let args := ["skopeo"; "copy";
               "docker://" +:+ source_image;
               "docker://" +:+ dest_image;
               "--override-os=" +:+ override_os ctx] in
  if String.eqb (override_arch ctx) "all"
  then args ++ ["--multi-arch=all"]
  else args ++ ["--override-arch=" +:+ override_arch ctx].

(** The command line that [copy_image] runs ([args_with_creds]). *)
Definition copy_args_with_creds (ctx : Context)
    (source_image dest_image token : string) : list string :=
  copy_args ctx source_image dest_image ++ ["--dest-creds=" +:+ token].

(** [subprocess.check_output(cmd, stderr=subprocess.STDOUT)] of a copy. *)
Definition check_output_copy (cmd : list string) : M string :=
  call (CheckOutput cmd)
       (let (returncode, output) := skopeo_copy skopeo cmd in
        if (returncode =? 0)%Z then Ok output
        else Raise (CalledProcessError returncode cmd output)).

(** [copy_image] (lines 159-184). *)
Definition copy_image (ctx : Context) (source_image dest_image token : string)
    (sleep_time : Z) : M unit :=
  do! emit (Echo ("Copying " +:+ style green source_image +:+ " to "
                  +:+ style blue dest_image)) in
  let args := copy_args ctx source_image dest_image in
  let args_with_creds := copy_args_with_creds ctx source_image dest_image token in
  do! try_except
        (do! check_output_copy args_with_creds in ret tt)
        (fun returncode output =>
           do! secho (PyStr.join " " args +:+ " raised an error: "
                      +:+ PyStr.of_Z returncode) red in
           secho ("Last output: " +:+ repr_bytes (PyStr.drop 100 output)) red) in
  emit (Sleep sleep_time).

(** [does_match] (lines 201-213), the closure of [find_tags_to_copy]. *)
Definition does_match (tag_patterns ignore_tags : list string) (tag : string) : bool :=
  let any_matches := existsb (Fnmatch.fnmatch tag) tag_patterns in
  let any_negates := existsb (Fnmatch.fnmatch tag) ignore_tags in
  if match tag_patterns with [] => true | _ => false end && negb any_negates then true
  else if any_negates then false
  else any_matches.

(** The generator expression of lines 215-219: the tags that [does_match]
    keeps, in the order of the listing. *)
Definition select (all_tags tag_patterns ignore_tags : list string) : list string :=
  List.filter (does_match tag_patterns ignore_tags) all_tags.

(** The command line of [find_tags_to_copy] ([cmd]). *)
Definition list_tags_cmd (ctx : Context) (image_name : string) : list string :=
  let cmd := ["skopeo"; "list-tags";
              "docker://" +:+ image_name;
              "--override-os=" +:+ override_os ctx] in
  if negb (String.eqb (override_arch ctx) "all")
  then cmd ++ ["--override-arch=" +:+ override_arch ctx]
  else cmd.

(** [find_tags_to_copy] (lines 187-219), as its caller consumes it: the
    generator is run to its end, and what it raises is raised there. *)
Definition find_tags_to_copy (ctx : Context) (image_name : string)
    (tag_patterns ignore_tags : list string) : M (list string) :=
  let cmd := list_tags_cmd ctx image_name in
  let! all_tags := call (CheckOutput cmd) (skopeo_list_tags skopeo cmd) in
  ret (select all_tags tag_patterns ignore_tags).

(** The list comprehension of [copy_repositories] (lines 138-142). *)
Fixpoint find_items (ctx : Context) (repositories : list MirroredRepo)
    : M (list (MirroredRepo * string)) :=
  match repositories with
  | [] => ret []
  | repo :: repositories' =>
      let! tags := find_tags_to_copy ctx (upstream_image repo)
                     (upstream_tags repo) (ignore_tags repo) in
      let! items := find_items ctx repositories' in
      ret (map (fun tag => (repo, tag)) tags ++ items)
  end.

(** The task of the pool (lines 148-154). *)
Definition copy_item (ctx : Context) (token : string)
    (item : MirroredRepo * string) : M unit :=
  copy_image ctx (upstream_image item.1 +:+ ":" +:+ item.2)
             (repository_uri item.1 +:+ ":" +:+ item.2) token 1.

(** [copy_repositories] (lines 129-156).  The iterator that [pool.map]
    returns is dropped, so no result of a task is ever retrieved. *)
Definition copy_repositories (ctx : Context) (client : ECRClient)
    (registry_id : string) (repositories : list MirroredRepo) : M unit :=
  let! token := ecr_login client registry_id in
  do! emit (Echo "Finding all tags to copy...") in
  let! items := find_items ctx repositories in
  do! emit (Echo ("Beginning the copy of " +:+ PyStr.of_Z (Z.of_nat (length items))
                  +:+ " images")) in
  do! pool_map (copy_item ctx token) items in
  ret tt.

(** The dictionary comprehension of [filter_repo] (line 235): a later item
    overrides an earlier one with the same key. *)
Definition tags_dict (tags : list TagItem) : gmap string string :=
  foldl (fun d tag_item => <[Key tag_item := Value tag_item]> d) ∅ tags.

(** [tags_dict.get(key, "").replace("+", "*").split("/")]. *)
Definition patterns_of (d : gmap string string) (key : string) : list string :=
  PyStr.split "/" (PyStr.replace "+" "*" (default "" (d !! key))).

(** What [filter_repo] returns once the tags are fetched (lines 235-247). *)
Definition mirrored_repo (repo : Repository) (tags : list TagItem) : option MirroredRepo :=
  let d := tags_dict tags in
  match d !! "upstream-image" with
  | Some image =>
      Some {| upstream_image := image;
              upstream_tags := patterns_of d "upstream-tags";
              ignore_tags := patterns_of d "ignore-tags";
              repository_uri := repositoryUri repo |}
  | None => None
  end.

(** [filter_repo] (lines 233-247), the closure of [find_repositories]. *)
Definition filter_repo (client : ECRClient) (repo : Repository) : M (option MirroredRepo) :=
  let! tags := call (ListTagsForResource (repositoryArn repo))
                    (list_tags_for_resource client (repositoryArn repo)) in
  ret (mirrored_repo repo tags).

(** The loop over the results of [pool.map] (lines 250-252), run to its end:
    a task's exception is raised when the loop reaches its result. *)
Fixpoint collect (futures : list (result (option MirroredRepo))) : result (list MirroredRepo) :=
  match futures with
  | [] => Ok []
  | Raise e :: _ => Raise e
  | Ok item :: futures' =>
      match collect futures' with
      | Raise e => Raise e
      | Ok items => Ok (match item with Some repo => repo :: items | None => items end)
      end
  end.

(** [list(find_repositories(client, registry_id))] (lines 222-252); [ahead]
    is the scheduling of its pool (see [pool_results]). *)
Definition find_repositories (ahead : nat) (client : ECRClient) (registry_id : string)
    : M (list MirroredRepo) :=
  let! pages := call (DescribeRepositories registry_id)
                     (describe_repositories client registry_id) in
  let all_repositories := concat pages in
  let! futures := pool_results ahead (filter_repo client) all_repositories in
  fun t => (collect futures, t).

(** The [sync] command (lines 75-82). *)
Definition sync (ahead : nat) (ctx : Context) : M unit :=
  let! repositories := find_repositories ahead (client ctx) (registry_id ctx) in
  copy_repositories ctx (client ctx) (registry_id ctx) repositories.

(** The [copy] command (lines 85-102).  Unpacking [source.split(":")] into
    two names raises [ValueError] unless there are exactly two fields. *)
Definition copy (ctx : Context) (source destination_repository : string) : M unit :=
  match PyStr.split ":" source with
  | [upstream_image; upstream_tag] =>
      let repositories :=
        [ {| upstream_image := upstream_image;
             upstream_tags := [upstream_tag];
             repository_uri := destination_repository;
             ignore_tags := [] |} ] in
      copy_repositories ctx (client ctx) (registry_id ctx) repositories
  | _ => raise ValueError
  end.

End Program.

(** The [skopeo copy] command lines of a trace, in order. *)
Definition is_copy (cmd : list string) : bool :=
  match cmd with
  | _ :: verb :: _ => String.eqb verb "copy"
  | _ => false
  end.

Fixpoint copy_commands (t : list event) : list (list string) :=
  match t with
  | [] => []
  | CheckOutput cmd :: t' =>
      if is_copy cmd then cmd :: copy_commands t' else copy_commands t'
  | _ :: t' => copy_commands t'
  end.

(** The command line that copies tag [item.2] of descriptor [item.1]. *)
Definition work_item_cmd (ctx : Context) (token : string)
    (item : MirroredRepo * string) : list string :=
  copy_args_with_creds ctx (upstream_image item.1 +:+ ":" +:+ item.2)
                       (repository_uri item.1 +:+ ":" +:+ item.2) token.

(** Whether the resource tags hold [key]. *)
Definition has_key (key : string) (tags : list TagItem) : bool :=
  existsb (fun tag_item => String.eqb (Key tag_item) key) tags.

(** The events with which [copy_repositories] starts. *)
Definition login_events (registry_id : string) : list event :=
  [GetAuthorizationToken [registry_id]; Echo "Finding all tags to copy..."].

(** The calls of repository discovery. *)
Definition is_discovery (ev : event) : bool :=
  match ev with
  | DescribeRepositories _ | ListTagsForResource _ => true
  | _ => false
  end.

(** ** The [list_repos] command *)

Definition yellow := "33".

(** [repr(s)] of a [str] whose characters are below U+0100: the quote is
    chosen as for [bytes]; the backslash, the quote, the control characters
    and the characters that are not printable are escaped. *)
Definition repr_char (q c : ascii) : string :=
  let n := nat_of_ascii c in
  if Ascii.eqb c q || Ascii.eqb c backslash then String backslash (String c "")
  else if (n =? 9)%nat then String backslash "t"
  else if (n =? 10)%nat then String backslash "n"
  else if (n =? 13)%nat then String backslash "r"
  else if (n <? 32)%nat || ((127 <=? n)%nat && (n <=? 160)%nat) || (n =? 173)%nat then
    String backslash (String "x" (String (hex_digit (n / 16)) (String (hex_digit (n mod 16)) "")))
  else String c "".

Definition repr_str (s : string) : string :=
  let q := if (0 <? PyStr.count quote s)%nat && (PyStr.count dquote s =? 0)%nat
           then dquote else quote in
  String q (String.concat "" (map (repr_char q) (String.list_ascii_of_string s)))
    +:+ String q "".

(** [str(l)] of a list of [str], which is what an f-string prints. *)
Definition repr_list (l : list string) : string :=
  "[" +:+ PyStr.join ", " (map repr_str l) +:+ "]".

(** The lines that the loop of [list_repos] prints for one descriptor
    (lines 113-116); [if repo.upstream_tags] holds for a non-empty list. *)
Definition echo_repo (repo : MirroredRepo) : M unit :=
  do! secho ("- upstream: " +:+ upstream_image repo) green in
  do! secho ("  mirror: " +:+ repository_uri repo) red in
  match upstream_tags repo with
  | [] => ret tt
  | _ :: _ => secho ("  tags: " +:+ repr_list (upstream_tags repo)) yellow
  end.

(** The loop of [list_repos] over the generator [find_repositories]: the
    body runs for a descriptor as soon as the generator yields it, and the
    exception of a task is raised when the generator reaches its result. *)
Fixpoint echo_repos (futures : list (result (option MirroredRepo))) : M unit :=
  match futures with
  | [] => ret tt
  | Raise e :: _ => raise e
  | Ok None :: futures' => echo_repos futures'
  | Ok (Some repo) :: futures' => do! echo_repo repo in echo_repos futures'
  end.

(** The [list_repos] command (lines 105-116).  The generator starts at the
    first iteration of the loop, after the heading is printed; [ahead] is
    the scheduling of its pool (see [pool_results]). *)
Definition list_repos (ahead : nat) (ctx : Context) : M unit :=
  do! emit (Echo "Repositories to mirror:") in
  let! pages := call (DescribeRepositories (registry_id ctx))
                     (describe_repositories (client ctx) (registry_id ctx)) in
  let! futures := pool_results ahead (filter_repo (client ctx)) (concat pages) in
  echo_repos futures.

(** ** Readings of a trace *)

(** The messages printed, in order. *)
Definition echoes (t : list event) : list string :=
  omap (fun ev => match ev with Echo message => Some message | _ => None end) t.

(** The command lines run, in order. *)
Definition commands (t : list event) : list (list string) :=
  omap (fun ev => match ev with CheckOutput cmd => Some cmd | _ => None end) t.

(** The resources whose tags are looked up, in order. *)
Definition lookups (t : list event) : list string :=
  omap (fun ev => match ev with ListTagsForResource arn => Some arn | _ => None end) t.

(** The events of discovery and of the terminal. *)
Definition is_listing_event (ev : event) : bool :=
  match ev with
  | Echo _ | DescribeRepositories _ | ListTagsForResource _ => true
  | _ => false
  end.


(** What [filter_repo] leaves in its future, by the answer to its lookup. *)
Definition filter_repo_future (client : ECRClient) (repo : Repository)
    : result (option MirroredRepo) :=
  match list_tags_for_resource client (repositoryArn repo) with
  | Ok tags => Ok (mirrored_repo repo tags)
  | Raise e => Raise e
  end.

(** The repositories whose task runs in the pool of discovery: all of them
    when no lookup fails, else those up to the first whose lookup fails and
    the [ahead] next ones. *)
Fixpoint looked_up (ahead : nat) (client : ECRClient) (repositories : list Repository)
    : list Repository :=
  match repositories with
  | [] => []
  | repo :: repositories' =>
      repo :: match filter_repo_future client repo with
              | Ok _ => looked_up ahead client repositories'
              | Raise _ => firstn ahead repositories'
              end
  end.

(** The lines of [echo_repo] for a descriptor with include patterns. *)
Definition repo_lines (repo : MirroredRepo) : list event :=
  [Echo (style green ("- upstream: " +:+ upstream_image repo));
   Echo (style red ("  mirror: " +:+ repository_uri repo));
   Echo (style yellow ("  tags: " +:+ repr_list (upstream_tags repo)))].

(** The metadata value that stands for a list of patterns: [+] for [*],
    the patterns joined by [/]. *)
Definition encode_patterns (patterns : list string) : string :=
  PyStr.join "/" (map (PyStr.replace "*" "+") patterns).

(** ** A sample environment

    One registry and one upstream on which the model is run: the registry
    holds [alpine-mirror] (tagged for mirroring, with both pattern keys),
    [nginx-mirror] (tagged with [upstream-image] alone) and [scratch]
    (not tagged); upstream, [library/alpine] and [library/nginx] can be
    listed, any other image cannot; copying [library/alpine:3.10] fails. *)

Definition sample_client : ECRClient :=
  {| get_authorization_token := fun _ => Ok "AWS:secret";
     describe_repositories := fun _ =>
       Ok [ [ {| repositoryArn := "arn:alpine"; repositoryUri := "123.dkr/alpine-mirror" |};
              {| repositoryArn := "arn:scratch"; repositoryUri := "123.dkr/scratch" |} ];
            [ {| repositoryArn := "arn:nginx"; repositoryUri := "123.dkr/nginx-mirror" |} ] ];
     list_tags_for_resource := fun arn =>
       if String.eqb arn "arn:alpine" then
         Ok [ {| Key := "upstream-image"; Value := "library/alpine" |};
              {| Key := "upstream-tags"; Value := "3.+" |};
              {| Key := "ignore-tags"; Value := "3.9" |} ]
       else if String.eqb arn "arn:nginx" then
         Ok [ {| Key := "team"; Value := "web" |};
              {| Key := "upstream-image"; Value := "library/nginx" |} ]
       else Ok [ {| Key := "team"; Value := "infra" |} ] |}.

(** The resource tags of the sample registry, by repository. *)
Definition sample_tags (repo : Repository) : list TagItem :=
  match list_tags_for_resource sample_client (repositoryArn repo) with
  | Ok tags => tags
  | Raise _ => []
  end.

Definition sample_ctx : Context :=
  {| client := sample_client; registry_id := "123";
     override_os := "linux"; override_arch := "amd64" |}.

Definition sample_skopeo : Skopeo :=
  {| skopeo_list_tags := fun cmd =>
       match cmd with
       | _ :: _ :: image :: _ =>
           if String.eqb image "docker://library/alpine"
           then Ok ["3.8"; "3.9"; "3.10"; "latest"]
           else if String.eqb image "docker://library/nginx"
           then Ok ["1.25"; "1.27"]
           else Raise (CalledProcessError 1 cmd "")
       | _ => Raise (CalledProcessError 2 cmd "")
       end;
     skopeo_copy := fun cmd =>
       match cmd with
       | _ :: _ :: image :: _ =>
           if String.eqb image "docker://library/alpine:3.10"
           then (1%Z, "unauthorized: authentication required")
           else (0%Z, "")
       | _ => (125%Z, "")
       end |}.

Definition missing_mirror : MirroredRepo :=
  {| upstream_image := "library/missing";
     repository_uri := "123.dkr/missing-mirror";
     upstream_tags := [];
     ignore_tags := [] |}.

Definition alpine_mirror : MirroredRepo :=
  {| upstream_image := "library/alpine";
     repository_uri := "123.dkr/alpine-mirror";
     upstream_tags := ["3.*"];
     ignore_tags := ["3.9"] |}.

(** A registry of twelve repositories, all tagged for mirroring, in which the
    tag lookup of the second one is denied. *)
Definition wide_repositories : list Repository :=
  map (fun name => {| repositoryArn := "arn:" +:+ name;
                      repositoryUri := "123.dkr/" +:+ name |})
      ["r0"; "r1"; "r2"; "r3"; "r4"; "r5"; "r6"; "r7"; "r8"; "r9"; "r10"; "r11"].

Definition wide_tags (repo : Repository) : list TagItem :=
  [ {| Key := "upstream-image"; Value := "library/alpine" |};
    {| Key := "upstream-tags"; Value := "3.+" |} ].

Definition wide_client : ECRClient :=
  {| get_authorization_token := get_authorization_token sample_client;
     describe_repositories := fun _ => Ok [wide_repositories];
     list_tags_for_resource := fun arn =>
       if String.eqb arn "arn:r1" then Raise (OtherError "AccessDenied")
       else Ok (wide_tags {| repositoryArn := arn; repositoryUri := "" |}) |}.

Definition wide_ctx : Context :=
  {| client := wide_client; registry_id := "123";
     override_os := "linux"; override_arch := "amd64" |}.

(** The sample registry with the login denied. *)
Definition locked_client : ECRClient :=
  {| get_authorization_token := fun _ => Raise (OtherError "AccessDenied");
     describe_repositories := describe_repositories sample_client;
     list_tags_for_resource := list_tags_for_resource sample_client |}.

Definition locked_ctx : Context :=
  {| client := locked_client; registry_id := "123";
     override_os := "linux"; override_arch := "amd64" |}.

(** * Properties *)

(** ** String primitives *)

Lemma split_length sep s : length (PyStr.split sep s) = S (PyStr.count sep s).
Proof.
  induction s as [|c s IH]; simpl; [reflexivity|].
  destruct (Ascii.eqb c sep); simpl.
  - now rewrite IH.
  - destruct (PyStr.split sep s); simpl in *; lia.
Qed.

Lemma split_no_sep sep s : PyStr.count sep s = 0 -> PyStr.split sep s = [s].
Proof.
  induction s as [|c s IH]; simpl; [reflexivity|].
  destruct (Ascii.eqb c sep); [discriminate|]. intros Hs. now rewrite IH.
Qed.

Lemma split_two sep a b :
  PyStr.count sep a = 0 -> PyStr.count sep b = 0 ->
  PyStr.split sep (a +:+ String sep b) = [a; b].
Proof.
  intros Ha Hb. induction a as [|c a IH]; simpl in *.
  - now rewrite Ascii.eqb_refl, split_no_sep.
  - destruct (Ascii.eqb c sep); [discriminate|]. now rewrite IH.
Qed.

Example split_examples :
  PyStr.split "/" (PyStr.replace "+" "*" "v1.+/v2.+") = ["v1.*"; "v2.*"]
  /\ PyStr.split "/" "" = [""]
  /\ PyStr.split ":" "host:5000/image:tag" = ["host"; "5000/image"; "tag"].
Proof. repeat split; reflexivity. Qed.

(** ** Glob matching *)

Example fnmatch_examples :
  Fnmatch.fnmatch "3.10" "3.*" = true
  /\ Fnmatch.fnmatch "latest" "3.*" = false
  /\ Fnmatch.fnmatch "v1" "v[0-3]" = true
  /\ Fnmatch.fnmatch "v7" "v[!0-3]" = true
  /\ Fnmatch.fnmatch "a[b" "a[b" = true
  /\ Fnmatch.fnmatch "1.x" "1.?" = true.
Proof. repeat split; reflexivity. Qed.

(** The empty pattern matches the empty name only. *)
Lemma fnmatch_empty_pattern name :
  Fnmatch.fnmatch name "" = true <-> name = "".
Proof.
  unfold Fnmatch.fnmatch; simpl. destruct name; simpl; split; congruence.
Qed.

(** A pattern without [*], [?] and [[] matches itself only. *)
Lemma translate_literal pat :
  forallb Fnmatch.literal_char pat = true ->
  Fnmatch.translate_from 0 pat = map Fnmatch.Lit pat.
Proof.
  induction pat as [|c pat IH]; simpl; [reflexivity|].
  intros [Hc Hpat]%andb_prop. unfold Fnmatch.literal_char in Hc.
  destruct (Ascii.eqb c "*"), (Ascii.eqb c "?"), (Ascii.eqb c "[");
    simpl in Hc; try discriminate.
  now rewrite IH.
Qed.

Lemma matches_literal pat name :
  Fnmatch.matches (map Fnmatch.Lit pat) name = true <-> name = pat.
Proof.
  revert name; induction pat as [|c pat IH]; intros [|d name]; simpl;
    try (split; congruence).
  rewrite andb_true_iff, IH, Ascii.eqb_eq. split.
  - intros [-> ->]; reflexivity.
  - intros [= -> ->]; auto.
Qed.

Lemma fnmatch_literal name pat :
  forallb Fnmatch.literal_char (String.list_ascii_of_string pat) = true ->
  Fnmatch.fnmatch name pat = true <-> name = pat.
Proof.
  intros Hlit. unfold Fnmatch.fnmatch, Fnmatch.translate.
  rewrite translate_literal, matches_literal by assumption. split.
  - intros H. rewrite <- (String.string_of_list_ascii_of_string name), H.
    apply String.string_of_list_ascii_of_string.
  - now intros ->.
Qed.

(** ** The tag matcher *)

Example select_examples :
  select ["v1.0"; "v1.1"; "v2.0"] ["v1.*"] [] = ["v1.0"; "v1.1"]
  /\ select ["v1.0"; "v1.1"; "v2.0"] [] ["v2.*"] = ["v1.0"; "v1.1"]
  /\ select ["v1.0"; "v1.1"; "v2.0"] ["v*"] ["v2.*"] = ["v1.0"; "v1.1"]
  /\ select [] ["v*"] ["v2.*"] = [].
Proof. repeat split; reflexivity. Qed.

(** C3: with no include pattern and no exclude pattern every tag of the
    listing is selected, so the selection is the listing itself. *)
Theorem select_no_patterns (all_tags : list string) :
  select all_tags [] [] = all_tags.
Proof.
  unfold select. induction all_tags as [|tag all_tags IH]; simpl.
  - reflexivity.
  - now rewrite IH.
Qed.

Lemma does_match_negated tag_patterns ignore_tags tag :
  existsb (Fnmatch.fnmatch tag) ignore_tags = true ->
  does_match tag_patterns ignore_tags tag = false.
Proof.
  intros Hneg. unfold does_match. rewrite Hneg. simpl.
  now rewrite andb_false_r.
Qed.

(** C4: a tag that matches one of the exclude patterns is rejected by
    [does_match], whatever the include patterns are and whether or not the
    tag matches one of them; it is in no selection. *)
Theorem exclude_wins (tag : string) (tag_patterns ignore_tags : list string) :
  (exists pattern, In pattern ignore_tags /\ Fnmatch.fnmatch tag pattern = true) ->
  does_match tag_patterns ignore_tags tag = false
  /\ forall all_tags, ~ In tag (select all_tags tag_patterns ignore_tags).
Proof.
  intros Hex. apply existsb_exists in Hex.
  pose proof (does_match_negated tag_patterns _ _ Hex) as Hno.
  split; [exact Hno|].
  intros all_tags Hin. unfold select in Hin.
  apply filter_In in Hin as [_ Hyes]. congruence.
Qed.

Lemma exclude_wins_witness :
  Fnmatch.fnmatch "3.9" "3.*" = true
  /\ does_match ["3.*"] ["3.9"] "3.9" = false
  /\ forall all_tags, ~ In "3.9" (select all_tags ["3.*"] ["3.9"]).
Proof.
  split; [reflexivity|].
  apply (exclude_wins "3.9" ["3.*"] ["3.9"]).
  exists "3.9". split; [left; reflexivity | reflexivity].
Defined.

(** ** Discovery: the patterns of a descriptor *)

(** C2 (what the code does at the failing input): a repository tagged with
    [upstream-image] alone gets the one-element pattern lists [[""]], not
    empty ones. *)
Theorem absent_keys_give_one_empty_pattern :
  mirrored_repo {| repositoryArn := "arn:alpine"; repositoryUri := "123.dkr/alpine-mirror" |}
                [ {| Key := "upstream-image"; Value := "library/alpine" |} ]
  = Some {| upstream_image := "library/alpine";
            repository_uri := "123.dkr/alpine-mirror";
            upstream_tags := [""];
            ignore_tags := [""] |}.
Proof. vm_compute. reflexivity. Qed.

Lemma does_match_empty_pattern ignore_tags tag :
  tag <> "" -> does_match [""] ignore_tags tag = false.
Proof.
  intros Hne. unfold does_match. simpl.
  destruct (Fnmatch.fnmatch tag "") eqn:Hm.
  - apply fnmatch_empty_pattern in Hm. contradiction.
  - simpl. now destruct (existsb _ ignore_tags).
Qed.

Lemma select_empty_pattern all_tags ignore_tags :
  Forall (fun tag => tag <> "") all_tags -> select all_tags [""] ignore_tags = [].
Proof.
  unfold select. induction 1 as [|tag all_tags Hne _ IH]; simpl.
  - reflexivity.
  - now rewrite does_match_empty_pattern, IH.
Qed.

(** C9: a repository that has the [upstream-image] key and no
    [upstream-tags] key gets the include patterns [[""]]; the empty pattern
    matches no non-empty tag; so from a listing of non-empty tags nothing is
    selected, whatever the exclude patterns are, and the descriptor expands
    to no work item. *)
Theorem absent_upstream_tags_select_nothing
    (repo : Repository) (tags : list TagItem) (image : string) :
  tags_dict tags !! "upstream-image" = Some image ->
  tags_dict tags !! "upstream-tags" = None ->
  exists mirrored,
    mirrored_repo repo tags = Some mirrored
    /\ upstream_tags mirrored = [""]
    /\ (forall tag, tag <> "" -> Fnmatch.fnmatch tag "" = false)
    /\ forall all_tags,
         Forall (fun tag => tag <> "") all_tags ->
         select all_tags (upstream_tags mirrored) (ignore_tags mirrored) = []
         /\ forall skopeo ctx t,
              skopeo_list_tags skopeo (list_tags_cmd ctx (upstream_image mirrored))
                = Ok all_tags ->
              (find_items skopeo ctx [mirrored] t).1 = Ok [].
Proof.
  intros Himage Htags. unfold mirrored_repo. rewrite Himage.
  eexists; split; [reflexivity|]. simpl.
  assert (Hpat : patterns_of (tags_dict tags) "upstream-tags" = [""])
    by (unfold patterns_of; now rewrite Htags).
  rewrite Hpat. split; [reflexivity|]. split.
  - intros tag Hne. destruct (Fnmatch.fnmatch tag "") eqn:Hm; [|reflexivity].
    apply fnmatch_empty_pattern in Hm. contradiction.
  - intros all_tags Hall.
    pose proof (select_empty_pattern all_tags
                  (patterns_of (tags_dict tags) "ignore-tags") Hall) as Hnone.
    split; [exact Hnone|].
    intros skopeo ctx t Hlisting.
    cbn [find_items]. unfold find_tags_to_copy, call, ret, bind.
    cbn [upstream_image upstream_tags ignore_tags].
    rewrite Hlisting, Hnone. reflexivity.
Qed.

Lemma absent_upstream_tags_select_nothing_witness :
  exists mirrored,
    mirrored_repo {| repositoryArn := "arn:nginx"; repositoryUri := "123.dkr/nginx-mirror" |}
                  [ {| Key := "upstream-image"; Value := "library/nginx" |};
                    {| Key := "ignore-tags"; Value := "1.25" |} ] = Some mirrored
    /\ upstream_tags mirrored = [""]
    /\ (forall tag, tag <> "" -> Fnmatch.fnmatch tag "" = false)
    /\ forall all_tags,
         Forall (fun tag => tag <> "") all_tags ->
         select all_tags (upstream_tags mirrored) (ignore_tags mirrored) = []
         /\ forall skopeo ctx t,
              skopeo_list_tags skopeo (list_tags_cmd ctx (upstream_image mirrored))
                = Ok all_tags ->
              (find_items skopeo ctx [mirrored] t).1 = Ok [].
Proof.
  apply (absent_upstream_tags_select_nothing _ _ "library/nginx").
  - vm_compute. reflexivity.
  - vm_compute. reflexivity.
Defined.

Example nginx_sample_selects_nothing :
  select ["1.25"; "1.27"] [""] [""] = []
  /\ (sync sample_skopeo 8 sample_ctx []).1 = Ok tt
  /\ copy_commands (sync sample_skopeo 8 sample_ctx []).2
     = [copy_args_with_creds sample_ctx "library/alpine:3.8"
                             "123.dkr/alpine-mirror:3.8" "AWS:secret";
        copy_args_with_creds sample_ctx "library/alpine:3.10"
                             "123.dkr/alpine-mirror:3.10" "AWS:secret"].
Proof. repeat split; vm_compute; reflexivity. Qed.

(** ** Discovery: which repositories are kept *)

Lemma foldl_insert_is_Some (tags : list TagItem) (d : gmap string string) (key : string) :
  is_Some (foldl (fun d tag_item => <[Key tag_item := Value tag_item]> d) d tags !! key)
  <-> is_Some (d !! key) \/ has_key key tags = true.
Proof.
  revert d. induction tags as [|tag_item tags IH]; intros d; simpl.
  - split; [auto|]. intros [H|H]; [exact H|discriminate].
  - rewrite IH, lookup_insert_is_Some, orb_true_iff, String.eqb_eq.
    destruct (decide (Key tag_item = key)); tauto.
Qed.

Lemma tags_dict_has_key tags key :
  is_Some (tags_dict tags !! key) <-> has_key key tags = true.
Proof.
  unfold tags_dict. rewrite foldl_insert_is_Some, lookup_empty.
  split; [intros [[? [=]]|H]; exact H | auto].
Qed.

Lemma mirrored_repo_Some repo tags mirrored :
  mirrored_repo repo tags = Some mirrored ->
  has_key "upstream-image" tags = true
  /\ repository_uri mirrored = repositoryUri repo
  /\ tags_dict tags !! "upstream-image" = Some (upstream_image mirrored).
Proof.
  unfold mirrored_repo.
  destruct (tags_dict tags !! "upstream-image") as [image|] eqn:Himage; [|discriminate].
  intros [= <-]. simpl. split; [|split; reflexivity].
  apply tags_dict_has_key. rewrite Himage. eauto.
Qed.

Lemma mirrored_repo_None repo tags :
  mirrored_repo repo tags = None -> has_key "upstream-image" tags = false.
Proof.
  unfold mirrored_repo.
  destruct (tags_dict tags !! "upstream-image") as [image|] eqn:Himage; [discriminate|].
  intros _. apply not_true_is_false. intros Hhas.
  apply tags_dict_has_key in Hhas as [image Hsome]. congruence.
Qed.

Section Discovery.

Variable client : ECRClient.
Variable tags_of : Repository -> list TagItem.

Lemma pool_results_filter_repo ahead repositories t :
  (forall repo, In repo repositories ->
     list_tags_for_resource client (repositoryArn repo) = Ok (tags_of repo)) ->
  pool_results ahead (filter_repo client) repositories t
  = (Ok (map (fun repo => Ok (mirrored_repo repo (tags_of repo))) repositories),
     t ++ map (fun repo => ListTagsForResource (repositoryArn repo)) repositories).
Proof.
  revert t. induction repositories as [|repo repositories IH]; intros t Htags; simpl.
  - unfold ret. now rewrite app_nil_r.
  - unfold filter_repo at 1, bind, call, ret.
    rewrite (Htags repo) by (now left).
    rewrite IH by (intros repo' Hin; apply Htags; now right).
    now rewrite <- app_assoc.
Qed.

Lemma collect_all_ok repositories :
  collect (map (fun repo => Ok (mirrored_repo repo (tags_of repo))) repositories)
  = Ok (omap (fun repo => mirrored_repo repo (tags_of repo)) repositories).
Proof.
  induction repositories as [|repo repositories IH]; simpl; [reflexivity|].
  rewrite IH. now destruct (mirrored_repo repo (tags_of repo)).
Qed.

Lemma mirrored_of_tagged repositories :
  Forall2 (fun mirrored repo =>
             repository_uri mirrored = repositoryUri repo
             /\ tags_dict (tags_of repo) !! "upstream-image" = Some (upstream_image mirrored))
          (omap (fun repo => mirrored_repo repo (tags_of repo)) repositories)
          (List.filter (fun repo => has_key "upstream-image" (tags_of repo)) repositories).
Proof.
  induction repositories as [|repo repositories IH]; simpl; [constructor|].
  destruct (mirrored_repo repo (tags_of repo)) as [mirrored|] eqn:Hrepo.
  - apply mirrored_repo_Some in Hrepo as (-> & Huri & Himage). now constructor.
  - apply mirrored_repo_None in Hrepo as ->. exact IH.
Qed.

End Discovery.

(** C6: when the registry answers the listing with [pages] and the tag
    lookup of every repository with its tags, discovery returns (it does not
    raise) one descriptor per repository whose tags hold the
    [upstream-image] key, in the order of the listing, and none for the
    others: the descriptors found pair off with the repositories that have
    the key. *)
Theorem discovery_keeps_tagged_repositories
    (ahead : nat) (client : ECRClient) (registry_id : string)
    (pages : list (list Repository))
    (tags_of : Repository -> list TagItem) (t : list event) :
  describe_repositories client registry_id = Ok pages ->
  (forall repo, In repo (concat pages) ->
     list_tags_for_resource client (repositoryArn repo) = Ok (tags_of repo)) ->
  exists found evs,
    find_repositories ahead client registry_id t = (Ok found, t ++ evs)
    /\ Forall2 (fun mirrored repo =>
                  repository_uri mirrored = repositoryUri repo
                  /\ tags_dict (tags_of repo) !! "upstream-image"
                     = Some (upstream_image mirrored))
               found
               (List.filter (fun repo => has_key "upstream-image" (tags_of repo))
                            (concat pages)).
Proof.
  intros Hpages Htags. unfold find_repositories, bind, call. rewrite Hpages.
  rewrite (pool_results_filter_repo client tags_of) by exact Htags.
  rewrite collect_all_ok. eexists. eexists. split.
  - rewrite <- app_assoc. reflexivity.
  - apply mirrored_of_tagged.
Qed.

Lemma discovery_keeps_tagged_repositories_witness :
  exists found evs,
    find_repositories 8 sample_client "123" [] = (Ok found, [] ++ evs)
    /\ Forall2 (fun mirrored repo =>
                  repository_uri mirrored = repositoryUri repo
                  /\ tags_dict (sample_tags repo) !! "upstream-image"
                     = Some (upstream_image mirrored))
               found
               [ {| repositoryArn := "arn:alpine"; repositoryUri := "123.dkr/alpine-mirror" |};
                 {| repositoryArn := "arn:nginx"; repositoryUri := "123.dkr/nginx-mirror" |} ].
Proof.
  apply (discovery_keeps_tagged_repositories 8 sample_client "123"
           [ [ {| repositoryArn := "arn:alpine"; repositoryUri := "123.dkr/alpine-mirror" |};
               {| repositoryArn := "arn:scratch"; repositoryUri := "123.dkr/scratch" |} ];
             [ {| repositoryArn := "arn:nginx"; repositoryUri := "123.dkr/nginx-mirror" |} ] ]
           sample_tags []).
  - reflexivity.
  - intros repo _. unfold sample_tags. simpl.
    destruct (String.eqb _ "arn:alpine"); [reflexivity|].
    destruct (String.eqb _ "arn:nginx"); reflexivity.
Defined.

Example discovery_sample :
  (find_repositories 8 sample_client "123" []).1
  = Ok [ {| upstream_image := "library/alpine";
            repository_uri := "123.dkr/alpine-mirror";
            upstream_tags := ["3.*"];
            ignore_tags := ["3.9"] |};
         {| upstream_image := "library/nginx";
            repository_uri := "123.dkr/nginx-mirror";
            upstream_tags := [""];
            ignore_tags := [""] |} ].
Proof. vm_compute. reflexivity. Qed.

(** ** Traces *)

Lemma copy_commands_app t1 t2 :
  copy_commands (t1 ++ t2) = copy_commands t1 ++ copy_commands t2.
Proof.
  induction t1 as [|ev t1 IH]; simpl; [reflexivity|].
  destruct ev; try exact IH.
  destruct (is_copy cmd); simpl; now rewrite IH.
Qed.

Lemma is_copy_copy_args ctx source_image dest_image token :
  is_copy (copy_args_with_creds ctx source_image dest_image token) = true.
Proof.
  unfold copy_args_with_creds, copy_args.
  now destruct (String.eqb (override_arch ctx) "all").
Qed.

Lemma is_copy_list_tags ctx image_name : is_copy (list_tags_cmd ctx image_name) = false.
Proof.
  unfold list_tags_cmd. now destruct (String.eqb (override_arch ctx) "all").
Qed.

(** ** The image copier *)

Section Copier.

Variable skopeo : Skopeo.
Variable ctx : Context.

(** The events of one [copy_image], by the exit status of the transfer. *)
Lemma copy_image_trace source_image dest_image token sleep_time t :
  let cmd := copy_args_with_creds ctx source_image dest_image token in
  copy_image skopeo ctx source_image dest_image token sleep_time t
  = (Ok tt,
     t ++ [Echo ("Copying " +:+ style green source_image +:+ " to "
                 +:+ style blue dest_image);
           CheckOutput cmd]
       ++ (if ((skopeo_copy skopeo cmd).1 =? 0)%Z then []
           else [Echo (style red (PyStr.join " " (copy_args ctx source_image dest_image)
                                  +:+ " raised an error: "
                                  +:+ PyStr.of_Z (skopeo_copy skopeo cmd).1));
                 Echo (style red ("Last output: "
                                  +:+ repr_bytes (PyStr.drop 100 (skopeo_copy skopeo cmd).2)))])
       ++ [Sleep sleep_time]).
Proof.
  intros cmd. unfold copy_image, bind, try_except, check_output_copy, call, secho, emit, ret.
  fold cmd. destruct (skopeo_copy skopeo cmd) as [returncode output]. simpl.
  destruct (returncode =? 0)%Z; simpl; now rewrite <- !app_assoc.
Qed.

Lemma copy_image_returns source_image dest_image token sleep_time t :
  exists evs,
    copy_image skopeo ctx source_image dest_image token sleep_time t = (Ok tt, t ++ evs)
    /\ copy_commands evs = [copy_args_with_creds ctx source_image dest_image token]
    /\ existsb is_discovery evs = false.
Proof.
  eexists. split; [apply copy_image_trace|]. split.
  - simpl. rewrite is_copy_copy_args.
    destruct (_ =? _)%Z; reflexivity.
  - simpl. destruct (_ =? _)%Z; reflexivity.
Qed.

End Copier.

(** ** The copy orchestrator *)

Section Orchestrator.

Variable skopeo : Skopeo.
Variable ctx : Context.

(** The pool runs the command of every item and no task raises. *)
Lemma pool_map_copy_item token items t :
  exists futures evs,
    pool_map (copy_item skopeo ctx token) items t = (Ok futures, t ++ evs)
    /\ copy_commands evs = map (work_item_cmd ctx token) items
    /\ existsb is_discovery evs = false.
Proof.
  revert t. induction items as [|item items IH]; intros t.
  - exists [], []. simpl. unfold ret. now rewrite app_nil_r.
  - simpl. unfold copy_item at 1.
    destruct (copy_image_returns skopeo ctx (upstream_image item.1 +:+ ":" +:+ item.2)
                (repository_uri item.1 +:+ ":" +:+ item.2) token 1 t)
      as (evs1 & -> & Hcmd1 & Hdisc1).
    unfold bind, ret.
    destruct (IH (t ++ evs1)) as (futures & evs2 & -> & Hcmd2 & Hdisc2).
    exists (Ok tt :: futures), (evs1 ++ evs2). split; [now rewrite app_assoc|].
    split.
    + now rewrite copy_commands_app, Hcmd1, Hcmd2.
    + now rewrite existsb_app, Hdisc1, Hdisc2.
Qed.

Lemma find_tags_to_copy_eq image_name tag_patterns ignore_tags t :
  find_tags_to_copy skopeo ctx image_name tag_patterns ignore_tags t
  = (match skopeo_list_tags skopeo (list_tags_cmd ctx image_name) with
     | Ok all_tags => Ok (select all_tags tag_patterns ignore_tags)
     | Raise e => Raise e
     end,
     t ++ [CheckOutput (list_tags_cmd ctx image_name)]).
Proof.
  unfold find_tags_to_copy, bind, call, ret.
  now destruct (skopeo_list_tags skopeo _).
Qed.

(** Resolving the tags runs [skopeo list-tags] only. *)
Lemma find_items_trace repositories t outcome t' :
  find_items skopeo ctx repositories t = (outcome, t') ->
  exists evs, t' = t ++ evs /\ copy_commands evs = []
              /\ existsb is_discovery evs = false.
Proof.
  revert t outcome t'. induction repositories as [|repo repositories IH];
    intros t outcome t'; simpl.
  - unfold ret. intros [= <- <-]. exists []. now rewrite app_nil_r.
  - unfold bind at 1. rewrite find_tags_to_copy_eq.
    assert (Hev : copy_commands [CheckOutput (list_tags_cmd ctx (upstream_image repo))] = [])
      by (simpl; now rewrite is_copy_list_tags).
    destruct (skopeo_list_tags skopeo _) as [all_tags|e].
    + unfold bind at 1.
      destruct (find_items skopeo ctx repositories _) as [[items|e] t1] eqn:Hrest;
        apply IH in Hrest as (evs & -> & Hcmds & Hdisc); unfold ret;
        intros [= <- <-]; eexists; (split; [symmetry; apply app_assoc|]);
        (split; [now rewrite copy_commands_app, Hev, Hcmds
                |now rewrite existsb_app, Hdisc]).
    + intros [= <- <-]. eexists. split; [reflexivity|]. now split.
Qed.

(** A listing that fails makes the whole comprehension raise. *)
Lemma find_items_raises repositories t :
  Exists (fun repo => exists e,
            skopeo_list_tags skopeo (list_tags_cmd ctx (upstream_image repo)) = Raise e)
         repositories ->
  exists e t', find_items skopeo ctx repositories t = (Raise e, t').
Proof.
  revert t. induction repositories as [|repo repositories IH]; intros t Hex.
  - inversion Hex.
  - simpl. unfold bind at 1. rewrite find_tags_to_copy_eq.
    destruct (skopeo_list_tags skopeo (list_tags_cmd ctx (upstream_image repo)))
      as [all_tags|e] eqn:Hhead.
    + apply Exists_cons in Hex as [[e He]|Hex]; [congruence|].
      destruct (IH (t ++ [CheckOutput (list_tags_cmd ctx (upstream_image repo))]) Hex)
        as (e & t' & Hrest).
      unfold bind. rewrite Hrest. eauto.
    + eauto.
Qed.

Variable ecr : ECRClient.
Variable registry : string.

Lemma copy_repositories_ok repositories token t items t1 :
  get_authorization_token ecr [registry] = Ok token ->
  find_items skopeo ctx repositories (t ++ login_events registry) = (Ok items, t1) ->
  exists evs,
    copy_repositories skopeo ctx ecr registry repositories t = (Ok tt, t ++ evs)
    /\ copy_commands evs = map (work_item_cmd ctx token) items
    /\ existsb is_discovery evs = false.
Proof.
  intros Hlogin Hitems.
  unfold copy_repositories, ecr_login, bind, call, emit, ret. rewrite Hlogin.
  unfold login_events in Hitems. rewrite <- app_assoc. simpl.
  rewrite Hitems.
  apply find_items_trace in Hitems as (evs1 & -> & Hcmd1 & Hdisc1).
  set (t2 := _ ++ [Echo _]).
  destruct (pool_map_copy_item token items t2) as (futures & evs2 & -> & Hcmd2 & Hdisc2).
  subst t2. eexists. split.
  - rewrite <- !app_assoc. reflexivity.
  - rewrite !copy_commands_app, !existsb_app, Hcmd1, Hcmd2, Hdisc1, Hdisc2. now split.
Qed.

End Orchestrator.

(** C1 (as stated, refuted): in the sample environment the tags of
    [library/alpine] resolve to two work items and the listing of
    [library/missing] fails; the run over both descriptors raises the
    listing's exception and runs no copy at all, the two of [library/alpine]
    included. *)
Lemma listing_failure_stops_other_descriptors :
  find_items sample_skopeo sample_ctx [alpine_mirror] []
  = (Ok [(alpine_mirror, "3.8"); (alpine_mirror, "3.10")],
     [CheckOutput (list_tags_cmd sample_ctx "library/alpine")])
  /\ copy_repositories sample_skopeo sample_ctx sample_client "123"
                       [alpine_mirror; missing_mirror] []
     = (Raise (CalledProcessError 1 (list_tags_cmd sample_ctx "library/missing") ""),
        [GetAuthorizationToken ["123"];
         Echo "Finding all tags to copy...";
         CheckOutput (list_tags_cmd sample_ctx "library/alpine");
         CheckOutput (list_tags_cmd sample_ctx "library/missing")])
  /\ copy_commands
       (copy_repositories sample_skopeo sample_ctx sample_client "123"
                          [alpine_mirror; missing_mirror] []).2 = [].
Proof. repeat split; vm_compute; reflexivity. Qed.

(** C1 (amended): when the tag listing of one descriptor of the run fails,
    [copy_repositories] raises and the run ends there: no copy command of
    any descriptor has been run. *)
Theorem listing_failure_aborts_run
    (skopeo : Skopeo) (ctx : Context) (client : ECRClient) (registry_id : string)
    (repositories : list MirroredRepo) (t : list event) :
  Exists (fun repo => exists e,
            skopeo_list_tags skopeo (list_tags_cmd ctx (upstream_image repo)) = Raise e)
         repositories ->
  exists e evs,
    copy_repositories skopeo ctx client registry_id repositories t = (Raise e, t ++ evs)
    /\ copy_commands evs = [].
Proof.
  intros Hex. unfold copy_repositories, ecr_login, bind, call, emit.
  destruct (get_authorization_token client [registry_id]) as [token|e].
  - destruct (find_items_raises skopeo ctx repositories
                ((t ++ [GetAuthorizationToken [registry_id]])
                   ++ [Echo "Finding all tags to copy..."]) Hex) as (e & t' & Hrun).
    rewrite Hrun. apply find_items_trace in Hrun as (evs & -> & Hcmds & _).
    exists e. eexists. split; [rewrite <- !app_assoc; reflexivity|].
    now rewrite !copy_commands_app, Hcmds.
  - exists e, [GetAuthorizationToken [registry_id]]. now split.
Qed.

Lemma listing_failure_aborts_run_witness :
  exists e evs,
    copy_repositories sample_skopeo sample_ctx sample_client "123"
                      [alpine_mirror; missing_mirror] [] = (Raise e, [] ++ evs)
    /\ copy_commands evs = [].
Proof.
  apply (listing_failure_aborts_run sample_skopeo sample_ctx sample_client "123"
           [alpine_mirror; missing_mirror] []).
  apply Exists_cons_tl, Exists_cons_hd. eexists. vm_compute. reflexivity.
Defined.

(** C5: for the descriptor of [library/alpine] with include pattern [3.*]
    and exclude pattern [3.9], and the listing 3.8, 3.9, 3.10, latest, the
    expansion gives the work items of 3.8 and 3.10 and the run copies, for
    each of the two, [library/alpine:tag] to [123.dkr/alpine-mirror:tag]. *)
Theorem alpine_scenario
    (skopeo : Skopeo) (ctx : Context) (client : ECRClient)
    (registry_id token : string) :
  get_authorization_token client [registry_id] = Ok token ->
  skopeo_list_tags skopeo (list_tags_cmd ctx "library/alpine")
    = Ok ["3.8"; "3.9"; "3.10"; "latest"] ->
  (forall t0,
     find_items skopeo ctx [alpine_mirror] t0
     = (Ok [(alpine_mirror, "3.8"); (alpine_mirror, "3.10")],
        t0 ++ [CheckOutput (list_tags_cmd ctx "library/alpine")]))
  /\ exists t,
       copy_repositories skopeo ctx client registry_id [alpine_mirror] [] = (Ok tt, t)
       /\ copy_commands t
          = [copy_args_with_creds ctx "library/alpine:3.8" "123.dkr/alpine-mirror:3.8" token;
             copy_args_with_creds ctx "library/alpine:3.10" "123.dkr/alpine-mirror:3.10" token].
Proof.
  intros Hlogin Hlisting.
  assert (Hitems : forall t0,
            find_items skopeo ctx [alpine_mirror] t0
            = (Ok [(alpine_mirror, "3.8"); (alpine_mirror, "3.10")],
               t0 ++ [CheckOutput (list_tags_cmd ctx "library/alpine")])).
  { intros t0. cbn [find_items]. unfold bind at 1. rewrite find_tags_to_copy_eq.
    cbn [alpine_mirror upstream_image upstream_tags ignore_tags].
    rewrite Hlisting. reflexivity. }
  split; [exact Hitems|].
  destruct (copy_repositories_ok skopeo ctx client registry_id [alpine_mirror] token []
              _ _ Hlogin (Hitems _)) as (evs & Hrun & Hcmds & _).
  exists evs. split; [exact Hrun|]. rewrite Hcmds. reflexivity.
Qed.

Lemma alpine_scenario_witness :
  exists t,
    copy_repositories sample_skopeo sample_ctx sample_client "123" [alpine_mirror] []
    = (Ok tt, t)
    /\ copy_commands t
       = [copy_args_with_creds sample_ctx "library/alpine:3.8"
                               "123.dkr/alpine-mirror:3.8" "AWS:secret";
          copy_args_with_creds sample_ctx "library/alpine:3.10"
                               "123.dkr/alpine-mirror:3.10" "AWS:secret"].
Proof.
  apply (alpine_scenario sample_skopeo sample_ctx sample_client "123" "AWS:secret");
    reflexivity.
Defined.

Lemma drop_short n s : String.length s <= n -> PyStr.drop n s = "".
Proof.
  revert s. induction n as [|n IH]; intros [|c s]; simpl; try reflexivity.
  - lia.
  - intros Hlen. apply IH. lia.
Qed.

Lemma drop_head n head tail :
  String.length head = n -> PyStr.drop n (head +:+ tail) = tail.
Proof.
  revert head. induction n as [|n IH]; intros [|c head]; simpl; try discriminate.
  - now destruct tail.
  - intros [= Hlen]. now apply IH.
Qed.

(** C8 (what the code does): when the transfer exits with a non-zero
    status, [copy_image] returns normally; it has run the command, printed
    the command line (which names the source and the destination image)
    with the exit status, printed under [Last output:] the captured output
    without its first 100 bytes, and slept.  So of an output of 100 bytes
    or fewer nothing is printed, and of a longer one all that follows its
    first 100 bytes.  Whatever the exit statuses are, the pool runs the
    command of every work item. *)
Theorem copy_image_reports_failure
    (skopeo : Skopeo) (ctx : Context) (source_image dest_image token : string)
    (sleep_time returncode : Z) (output : string) (t : list event) :
  skopeo_copy skopeo (copy_args_with_creds ctx source_image dest_image token)
    = (returncode, output) ->
  returncode <> 0%Z ->
  copy_image skopeo ctx source_image dest_image token sleep_time t
  = (Ok tt,
     t ++ [Echo ("Copying " +:+ style green source_image +:+ " to "
                 +:+ style blue dest_image);
           CheckOutput (copy_args_with_creds ctx source_image dest_image token);
           Echo (style red (PyStr.join " " (copy_args ctx source_image dest_image)
                            +:+ " raised an error: " +:+ PyStr.of_Z returncode));
           Echo (style red ("Last output: " +:+ repr_bytes (PyStr.drop 100 output)));
           Sleep sleep_time])
  /\ (String.length output <= 100 -> repr_bytes (PyStr.drop 100 output) = "b''")
  /\ (forall head tail,
        output = head +:+ tail -> String.length head = 100 ->
        PyStr.drop 100 output = tail)
  /\ (exists options,
        PyStr.join " " (copy_args ctx source_image dest_image)
        = "skopeo copy docker://" +:+ source_image +:+ " docker://" +:+ dest_image
          +:+ options)
  /\ forall items t0, exists futures evs,
       pool_map (copy_item skopeo ctx token) items t0 = (Ok futures, t0 ++ evs)
       /\ copy_commands evs = map (work_item_cmd ctx token) items.
Proof.
  intros Hrun Hfail. split; [|split; [|split; [|split]]].
  - rewrite copy_image_trace, Hrun. simpl.
    apply Z.eqb_neq in Hfail. rewrite Hfail. reflexivity.
  - intros Hshort. now rewrite drop_short.
  - intros head tail -> Hhead. now apply drop_head.
  - unfold copy_args.
    destruct (String.eqb (override_arch ctx) "all"); eexists; simpl; reflexivity.
  - intros items t0.
    destruct (pool_map_copy_item skopeo ctx token items t0)
      as (futures & evs & Hrun' & Hcmds & _).
    eauto.
Qed.

Lemma copy_image_reports_failure_witness :
  copy_image sample_skopeo sample_ctx "library/alpine:3.10" "123.dkr/alpine-mirror:3.10"
             "AWS:secret" 1 []
  = (Ok tt,
     [Echo ("Copying " +:+ style green "library/alpine:3.10" +:+ " to "
            +:+ style blue "123.dkr/alpine-mirror:3.10");
      CheckOutput ["skopeo"; "copy"; "docker://library/alpine:3.10";
                   "docker://123.dkr/alpine-mirror:3.10"; "--override-os=linux";
                   "--override-arch=amd64"; "--dest-creds=AWS:secret"];
      Echo (style red ("skopeo copy docker://library/alpine:3.10 "
                       +:+ "docker://123.dkr/alpine-mirror:3.10 --override-os=linux "
                       +:+ "--override-arch=amd64 raised an error: 1"));
      Echo (style red "Last output: b''");
      Sleep 1]).
Proof.
  apply (copy_image_reports_failure sample_skopeo sample_ctx "library/alpine:3.10"
           "123.dkr/alpine-mirror:3.10" "AWS:secret" 1 1
           "unauthorized: authentication required" []).
  - reflexivity.
  - discriminate.
Defined.

Example copy_image_long_output :
  let head := "0123456789012345678901234567890123456789012345678901234567890123456789012345678901234567890123456789" in
  let failing := {| skopeo_list_tags := skopeo_list_tags sample_skopeo;
                    skopeo_copy := fun _ => (1%Z, head +:+ "manifest unknown") |} in
  String.length head = 100
  /\ echoes (copy_image failing sample_ctx "library/alpine:3.8"
               "123.dkr/alpine-mirror:3.8" "AWS:secret" 1 []).2
     = [ "Copying " +:+ style green "library/alpine:3.8" +:+ " to "
         +:+ style blue "123.dkr/alpine-mirror:3.8";
         style red ("skopeo copy docker://library/alpine:3.8 "
                    +:+ "docker://123.dkr/alpine-mirror:3.8 --override-os=linux "
                    +:+ "--override-arch=amd64 raised an error: 1");
         style red "Last output: b'manifest unknown'" ].
Proof. split; vm_compute; reflexivity. Qed.

(** ** The commands *)

(** C10: when [source] does not hold exactly one colon, [copy] raises
    [ValueError] at the unpacking of [source.split(":")], before any call
    to the registry or to [skopeo]: the trace is left as it was. *)
Theorem copy_rejects_malformed_source
    (skopeo : Skopeo) (ctx : Context) (source destination_repository : string)
    (t : list event) :
  PyStr.count ":" source <> 1 ->
  copy skopeo ctx source destination_repository t = (Raise ValueError, t).
Proof.
  intros Hcolons. unfold copy.
  pose proof (split_length ":" source) as Hlen.
  destruct (PyStr.split ":" source) as [|image [|tag [|extra fields]]];
    simpl in Hlen; try reflexivity.
  lia.
Qed.

Lemma copy_rejects_malformed_source_witness :
  PyStr.count ":" "host:5000/image:tag" = 2
  /\ copy sample_skopeo sample_ctx "host:5000/image:tag" "123.dkr/mirror" []
     = (Raise ValueError, [])
  /\ copy sample_skopeo sample_ctx "library/alpine" "123.dkr/mirror" []
     = (Raise ValueError, []).
Proof.
  split; [reflexivity|]. split.
  - apply (copy_rejects_malformed_source sample_skopeo sample_ctx
             "host:5000/image:tag" "123.dkr/mirror" []).
    simpl. lia.
  - reflexivity.
Defined.

Lemma does_match_one_pattern pattern tag :
  does_match [pattern] [] tag = Fnmatch.fnmatch tag pattern.
Proof. unfold does_match. simpl. now rewrite orb_false_r. Qed.

Lemma filter_literal (f : string -> bool) (pattern : string) (all_tags : list string) :
  (forall tag, f tag = true <-> tag = pattern) ->
  List.filter f all_tags = repeat pattern (count_occ String.string_dec all_tags pattern).
Proof.
  intros Hf. induction all_tags as [|tag all_tags IH]; simpl; [reflexivity|].
  destruct (String.string_dec tag pattern) as [->|Hne].
  - rewrite (proj2 (Hf pattern) eq_refl). simpl. now rewrite IH.
  - destruct (f tag) eqn:Hft; [apply Hf in Hft; contradiction|]. exact IH.
Qed.

(** C7 (as stated, refuted): in the sample environment, [copy] of
    [library/alpine:9.9], a tag that upstream does not list, returns without
    having run any copy, and [copy] of [library/alpine:3.?] runs two. *)
Lemma copy_command_item_count :
  (copy sample_skopeo sample_ctx "library/alpine:9.9" "123.dkr/alpine-mirror" []).1 = Ok tt
  /\ copy_commands
       (copy sample_skopeo sample_ctx "library/alpine:9.9" "123.dkr/alpine-mirror" []).2
     = []
  /\ copy_commands
       (copy sample_skopeo sample_ctx "library/alpine:3.?" "123.dkr/alpine-mirror" []).2
     = [copy_args_with_creds sample_ctx "library/alpine:3.8"
                             "123.dkr/alpine-mirror:3.8" "AWS:secret";
        copy_args_with_creds sample_ctx "library/alpine:3.9"
                             "123.dkr/alpine-mirror:3.9" "AWS:secret"].
Proof. repeat split; vm_compute; reflexivity. Qed.

(** C7 (amended): [copy] of [image:pattern] logs in, lists the upstream tags
    of [image] and, without any call of discovery, runs one copy per listed
    tag that matches [pattern] as a glob, from [image:tag] to
    [destination_repository:tag].  When [pattern] has no special character
    and the listing holds it once, that is the one copy of [image:pattern]
    to [destination_repository:pattern]. *)
Theorem copy_command_items
    (skopeo : Skopeo) (ctx : Context)
    (image pattern destination_repository token : string) (all_tags : list string) :
  PyStr.count ":" image = 0 ->
  PyStr.count ":" pattern = 0 ->
  get_authorization_token (client ctx) [registry_id ctx] = Ok token ->
  skopeo_list_tags skopeo (list_tags_cmd ctx image) = Ok all_tags ->
  exists t,
    copy skopeo ctx (image +:+ ":" +:+ pattern) destination_repository [] = (Ok tt, t)
    /\ existsb is_discovery t = false
    /\ copy_commands t
       = map (fun tag => copy_args_with_creds ctx (image +:+ ":" +:+ tag)
                           (destination_repository +:+ ":" +:+ tag) token)
             (List.filter (fun tag => Fnmatch.fnmatch tag pattern) all_tags)
    /\ (forallb Fnmatch.literal_char (String.list_ascii_of_string pattern) = true ->
        count_occ String.string_dec all_tags pattern = 1 ->
        copy_commands t
        = [copy_args_with_creds ctx (image +:+ ":" +:+ pattern)
                                (destination_repository +:+ ":" +:+ pattern) token]).
Proof.
  intros Himage Hpattern Hlogin Hlisting. unfold copy.
  change (image +:+ ":" +:+ pattern) with (image +:+ String ":" pattern).
  rewrite split_two by assumption.
  set (repo := {| upstream_image := image; repository_uri := destination_repository;
                  upstream_tags := [pattern]; ignore_tags := [] |}).
  set (selected := List.filter (fun tag => Fnmatch.fnmatch tag pattern) all_tags).
  assert (Hitems : find_items skopeo ctx [repo] ([] ++ login_events (registry_id ctx))
            = (Ok (map (fun tag => (repo, tag)) selected),
               login_events (registry_id ctx) ++ [CheckOutput (list_tags_cmd ctx image)])).
  { cbn [find_items]. unfold bind at 1. rewrite find_tags_to_copy_eq.
    cbn [repo upstream_image upstream_tags ignore_tags].
    rewrite Hlisting. unfold bind, ret, select. rewrite app_nil_r.
    do 3 f_equal. apply filter_ext. intros tag. apply does_match_one_pattern. }
  destruct (copy_repositories_ok skopeo ctx (client ctx) (registry_id ctx) [repo] token []
              _ _ Hlogin Hitems) as (evs & Hrun & Hcmds & Hdisc).
  rewrite map_map in Hcmds.
  exists evs. split; [exact Hrun|]. split; [exact Hdisc|]. split; [exact Hcmds|].
  intros Hliteral Honce. rewrite Hcmds. subst selected.
  rewrite (filter_literal _ pattern all_tags), Honce; [reflexivity|].
  intros tag. now apply fnmatch_literal.
Qed.

Lemma copy_command_items_witness :
  exists t,
    copy sample_skopeo sample_ctx ("library/alpine" +:+ ":" +:+ "3.8")
         "123.dkr/alpine-mirror" [] = (Ok tt, t)
    /\ existsb is_discovery t = false
    /\ copy_commands t
       = [copy_args_with_creds sample_ctx "library/alpine:3.8"
                               "123.dkr/alpine-mirror:3.8" "AWS:secret"].
Proof.
  destruct (copy_command_items sample_skopeo sample_ctx "library/alpine" "3.8"
              "123.dkr/alpine-mirror" "AWS:secret" ["3.8"; "3.9"; "3.10"; "latest"]
              eq_refl eq_refl eq_refl eq_refl) as (t & Hrun & Hdisc & _ & Hone).
  exists t. split; [exact Hrun|]. split; [exact Hdisc|].
  apply Hone; reflexivity.
Defined.

(** * Further properties of the code *)

(** ** The image copier, once more *)

(** X1: when the transfer exits with status 0, [copy_image] prints the
    [Copying] line, runs the command and sleeps, and prints nothing else;
    whatever the exit status, the last thing it does is to sleep for
    [sleep_time]. *)
Theorem copy_image_success
    (skopeo : Skopeo) (ctx : Context) (source_image dest_image token : string)
    (sleep_time : Z) (output : string) (t : list event) :
  skopeo_copy skopeo (copy_args_with_creds ctx source_image dest_image token)
    = (0%Z, output) ->
  copy_image skopeo ctx source_image dest_image token sleep_time t
  = (Ok tt,
     t ++ [Echo ("Copying " +:+ style green source_image +:+ " to "
                 +:+ style blue dest_image);
           CheckOutput (copy_args_with_creds ctx source_image dest_image token);
           Sleep sleep_time])
  /\ forall skopeo' t', exists evs,
       copy_image skopeo' ctx source_image dest_image token sleep_time t'
       = (Ok tt, t' ++ evs ++ [Sleep sleep_time]).
Proof.
  intros Hrun. split.
  - rewrite copy_image_trace, Hrun. reflexivity.
  - intros skopeo' t'. rewrite copy_image_trace. eexists.
    rewrite (app_assoc [_; _]). reflexivity.
Qed.

Lemma copy_image_success_witness :
  copy_image sample_skopeo sample_ctx "library/alpine:3.8" "123.dkr/alpine-mirror:3.8"
             "AWS:secret" 1 []
  = (Ok tt,
     [Echo ("Copying " +:+ style green "library/alpine:3.8" +:+ " to "
            +:+ style blue "123.dkr/alpine-mirror:3.8");
      CheckOutput ["skopeo"; "copy"; "docker://library/alpine:3.8";
                   "docker://123.dkr/alpine-mirror:3.8"; "--override-os=linux";
                   "--override-arch=amd64"; "--dest-creds=AWS:secret"];
      Sleep 1]).
Proof.
  apply (copy_image_success sample_skopeo sample_ctx "library/alpine:3.8"
           "123.dkr/alpine-mirror:3.8" "AWS:secret" 1 "" []).
  reflexivity.
Defined.

Lemma echoes_app t1 t2 : echoes (t1 ++ t2) = echoes t1 ++ echoes t2.
Proof. apply omap_app. Qed.

(** X2: what [copy_image] prints does not depend on the credentials: two
    runs that differ in the token only, and in which the transfer ends with
    the same status and output, print the same messages.  (The failure
    report joins [args], not [args_with_creds].) *)
Theorem copy_image_prints_no_token
    (skopeo1 skopeo2 : Skopeo) (ctx : Context)
    (source_image dest_image token1 token2 : string) (sleep_time : Z)
    (t : list event) :
  skopeo_copy skopeo1 (copy_args_with_creds ctx source_image dest_image token1)
  = skopeo_copy skopeo2 (copy_args_with_creds ctx source_image dest_image token2) ->
  echoes (copy_image skopeo1 ctx source_image dest_image token1 sleep_time t).2
  = echoes (copy_image skopeo2 ctx source_image dest_image token2 sleep_time t).2.
Proof.
  intros Hsame. rewrite !copy_image_trace. cbn [snd]. rewrite Hsame.
  rewrite !echoes_app. f_equal.
Qed.

Lemma copy_image_prints_no_token_witness :
  echoes (copy_image sample_skopeo sample_ctx "library/alpine:3.10"
            "123.dkr/alpine-mirror:3.10" "AWS:secret" 1 []).2
  = echoes (copy_image sample_skopeo sample_ctx "library/alpine:3.10"
              "123.dkr/alpine-mirror:3.10" "AWS:other" 1 []).2.
Proof.
  apply (copy_image_prints_no_token sample_skopeo sample_skopeo sample_ctx
           "library/alpine:3.10" "123.dkr/alpine-mirror:3.10"
           "AWS:secret" "AWS:other" 1 []).
  reflexivity.
Defined.

(** ** The tag matcher, once more *)

Lemma does_match_true_iff tag_patterns ignore_tags tag :
  does_match tag_patterns ignore_tags tag = true
  <-> existsb (Fnmatch.fnmatch tag) ignore_tags = false
      /\ (tag_patterns = [] \/ existsb (Fnmatch.fnmatch tag) tag_patterns = true).
Proof.
  unfold does_match.
  destruct (existsb (Fnmatch.fnmatch tag) ignore_tags); simpl.
  - rewrite andb_false_r. split; [discriminate|]. intros [[=] _].
  - rewrite andb_true_r. destruct tag_patterns as [|pattern tag_patterns].
    + split; auto.
    + split.
      * intros H. split; [reflexivity|]. now right.
      * intros [_ [[=]|H]]. exact H.
Qed.

(** X3: a tag is selected exactly when it is in the listing, no exclude
    pattern matches it, and either there is no include pattern or one of
    them matches it. *)
Theorem select_membership (tag : string) (all_tags tag_patterns ignore_tags : list string) :
  In tag (select all_tags tag_patterns ignore_tags)
  <-> In tag all_tags
      /\ (forall pattern, In pattern ignore_tags -> Fnmatch.fnmatch tag pattern = false)
      /\ (tag_patterns = []
          \/ exists pattern, In pattern tag_patterns /\ Fnmatch.fnmatch tag pattern = true).
Proof.
  unfold select. rewrite filter_In, does_match_true_iff.
  rewrite existsb_exists.
  assert (Hnone : existsb (Fnmatch.fnmatch tag) ignore_tags = false
                  <-> forall pattern, In pattern ignore_tags ->
                                      Fnmatch.fnmatch tag pattern = false).
  { rewrite <- not_true_iff_false, existsb_exists. split.
    - intros Hno pattern Hin. apply not_true_iff_false. intros Hm. apply Hno. eauto.
    - intros Hall (pattern & Hin & Hm). rewrite (Hall _ Hin) in Hm. discriminate. }
  rewrite Hnone. tauto.
Qed.

Lemma does_match_exclude_app tag_patterns ignore1 ignore2 tag :
  does_match tag_patterns (ignore1 ++ ignore2) tag
  = does_match tag_patterns ignore1 tag && does_match tag_patterns ignore2 tag.
Proof.
  unfold does_match. rewrite existsb_app.
  destruct tag_patterns, (existsb _ ignore1), (existsb _ ignore2); simpl;
    try reflexivity; now destruct (_ || _).
Qed.

Lemma filter_filter {A} (f g : A -> bool) (l : list A) :
  List.filter f (List.filter g l) = List.filter (fun x => g x && f x) l.
Proof.
  induction l as [|x l IH]; simpl; [reflexivity|].
  destruct (g x); simpl; [destruct (f x)|]; now rewrite IH.
Qed.

(** X4: selecting twice with the same include patterns is selecting once
    with the exclude patterns put together; in particular a selection is
    left unchanged by selecting from it again with the same patterns. *)
Theorem select_twice (all_tags tag_patterns ignore1 ignore2 : list string) :
  select (select all_tags tag_patterns ignore1) tag_patterns ignore2
  = select all_tags tag_patterns (ignore1 ++ ignore2)
  /\ select (select all_tags tag_patterns ignore1) tag_patterns ignore1
     = select all_tags tag_patterns ignore1.
Proof.
  unfold select. rewrite !filter_filter. split.
  - apply filter_ext. intros tag. now rewrite does_match_exclude_app.
  - apply filter_ext. intros tag. apply andb_diag.
Qed.

(** ** The patterns read from the resource tags *)

Lemma count_replace_other c old new s :
  c <> old -> c <> new -> PyStr.count c (PyStr.replace old new s) = PyStr.count c s.
Proof.
  intros Hold Hnew. induction s as [|c' s IH]; simpl; [reflexivity|]. rewrite IH.
  destruct (Ascii.eqb_spec c' old) as [->|Hne].
  - rewrite (proj2 (Ascii.eqb_neq new c)), (proj2 (Ascii.eqb_neq old c)); congruence.
  - reflexivity.
Qed.

Lemma count_replace_old old new s :
  old <> new -> PyStr.count old (PyStr.replace old new s) = 0.
Proof.
  intros Hne. induction s as [|c s IH]; simpl; [reflexivity|]. rewrite IH.
  destruct (Ascii.eqb_spec c old) as [->|Hc].
  - now rewrite (proj2 (Ascii.eqb_neq new old)) by congruence.
  - now rewrite (proj2 (Ascii.eqb_neq c old)).
Qed.

(** No field of a split holds the separator, nor a character that the
    whole string does not hold. *)
Lemma split_fields_count c sep s :
  c = sep \/ PyStr.count c s = 0 ->
  Forall (fun field => PyStr.count c field = 0) (PyStr.split sep s).
Proof.
  induction s as [|c' s IH]; simpl; intros Hc.
  - now repeat constructor.
  - destruct (Ascii.eqb_spec c' sep) as [->|Hsep].
    + constructor; [reflexivity|]. apply IH.
      destruct Hc as [->|Hc]; [now left|]. right.
      destruct (Ascii.eqb sep c); simpl in Hc; [discriminate|exact Hc].
    + assert (Hc' : Ascii.eqb c' c = false /\ (c = sep \/ PyStr.count c s = 0)).
      { destruct Hc as [->|Hc].
        - split; [now apply Ascii.eqb_neq|now left].
        - destruct (Ascii.eqb c' c); simpl in Hc; [discriminate|]. split; auto. }
      destruct Hc' as [Hne Hrest]. specialize (IH Hrest).
      destruct (PyStr.split sep s) as [|field fields].
      * repeat constructor. simpl. now rewrite Hne.
      * inversion IH; subst. constructor; [|assumption]. simpl. now rewrite Hne.
Qed.

(** X5: the pattern lists that discovery gives a descriptor are never
    empty: each holds one pattern more than its resource tag has slashes
    (one, the empty pattern, when the tag is absent), and no pattern holds a
    [/] or a [+].  So for a discovered descriptor [not tag_patterns] is
    false, and [does_match] selects a tag exactly when an include pattern
    matches it and no exclude pattern does. *)
Theorem discovered_patterns_shape
    (repo : Repository) (tags : list TagItem) (mirrored : MirroredRepo) :
  mirrored_repo repo tags = Some mirrored ->
  length (upstream_tags mirrored)
  = S (PyStr.count "/" (default "" (tags_dict tags !! "upstream-tags")))
  /\ length (ignore_tags mirrored)
     = S (PyStr.count "/" (default "" (tags_dict tags !! "ignore-tags")))
  /\ Forall (fun pattern => PyStr.count "/" pattern = 0 /\ PyStr.count "+" pattern = 0)
            (upstream_tags mirrored ++ ignore_tags mirrored)
  /\ forall tag,
       does_match (upstream_tags mirrored) (ignore_tags mirrored) tag
       = existsb (Fnmatch.fnmatch tag) (upstream_tags mirrored)
         && negb (existsb (Fnmatch.fnmatch tag) (ignore_tags mirrored)).
Proof.
  unfold mirrored_repo.
  destruct (tags_dict tags !! "upstream-image") as [image|]; [|discriminate].
  intros [= <-]. cbn [upstream_tags ignore_tags].
  assert (Hlen : forall key,
            length (patterns_of (tags_dict tags) key)
            = S (PyStr.count "/" (default "" (tags_dict tags !! key)))).
  { intros key. unfold patterns_of.
    rewrite split_length, count_replace_other; [reflexivity| |]; discriminate. }
  assert (Hshape : forall key,
            Forall (fun pattern => PyStr.count "/" pattern = 0
                                   /\ PyStr.count "+" pattern = 0)
                   (patterns_of (tags_dict tags) key)).
  { intros key. unfold patterns_of. apply Forall_and. split.
    - apply split_fields_count. now left.
    - apply split_fields_count. right. apply count_replace_old. discriminate. }
  split; [apply Hlen|]. split; [apply Hlen|]. split.
  - apply Forall_app. split; apply Hshape.
  - intros tag. unfold does_match.
    pose proof (Hlen "upstream-tags") as Hne.
    destruct (patterns_of (tags_dict tags) "upstream-tags"); [discriminate|].
    cbn [andb]. now destruct (existsb _ (patterns_of _ "ignore-tags")), (existsb _ (_ :: _)).
Qed.

Lemma discovered_patterns_shape_witness :
  exists mirrored,
    mirrored_repo {| repositoryArn := "arn:alpine"; repositoryUri := "123.dkr/alpine-mirror" |}
                  [ {| Key := "upstream-image"; Value := "library/alpine" |};
                    {| Key := "upstream-tags"; Value := "3.+/edge" |} ] = Some mirrored
    /\ length (upstream_tags mirrored) = 2
    /\ length (ignore_tags mirrored) = 1.
Proof.
  eexists. split; [vm_compute; reflexivity|].
  destruct (discovered_patterns_shape
              {| repositoryArn := "arn:alpine"; repositoryUri := "123.dkr/alpine-mirror" |}
              [ {| Key := "upstream-image"; Value := "library/alpine" |};
                {| Key := "upstream-tags"; Value := "3.+/edge" |} ]
              _ eq_refl) as (Hinclude & Hexclude & _).
  split; [exact Hinclude | exact Hexclude].
Defined.

Lemma split_cons sep a b :
  PyStr.count sep a = 0 ->
  PyStr.split sep (a +:+ String sep b) = a :: PyStr.split sep b.
Proof.
  intros Ha. induction a as [|c a IH]; simpl in *.
  - now rewrite Ascii.eqb_refl.
  - destruct (Ascii.eqb c sep); [discriminate|]. now rewrite IH.
Qed.

Lemma split_join sep fields :
  fields <> [] ->
  Forall (fun field => PyStr.count sep field = 0) fields ->
  PyStr.split sep (PyStr.join (String sep "") fields) = fields.
Proof.
  intros Hne Hfields. induction Hfields as [|field fields Hfield Hfields IH];
    [contradiction|].
  destruct fields as [|field' fields].
  - simpl. now apply split_no_sep.
  - change (PyStr.join (String sep "") (field :: field' :: fields))
      with (field +:+ String sep (PyStr.join (String sep "") (field' :: fields))).
    rewrite split_cons by assumption. now rewrite IH.
Qed.

Lemma replace_append old new a b :
  PyStr.replace old new (a +:+ b) = PyStr.replace old new a +:+ PyStr.replace old new b.
Proof. induction a as [|c a IH]; simpl; [reflexivity|]. now rewrite IH. Qed.

Lemma replace_join old new sep fields :
  sep <> old ->
  PyStr.replace old new (PyStr.join (String sep "") fields)
  = PyStr.join (String sep "") (map (PyStr.replace old new) fields).
Proof.
  intros Hsep. induction fields as [|field fields IH]; [reflexivity|].
  destruct fields as [|field' fields]; [reflexivity|].
  change (PyStr.join (String sep "") (field :: field' :: fields))
    with (field +:+ String sep (PyStr.join (String sep "") (field' :: fields))).
  change (PyStr.join (String sep "") (map (PyStr.replace old new) (field :: field' :: fields)))
    with (PyStr.replace old new field
          +:+ String sep (PyStr.join (String sep "")
                            (map (PyStr.replace old new) (field' :: fields)))).
  rewrite replace_append, <- IH. f_equal. cbn [PyStr.replace].
  now rewrite (proj2 (Ascii.eqb_neq sep old)).
Qed.

Lemma replace_back old new s :
  PyStr.count new s = 0 -> PyStr.replace new old (PyStr.replace old new s) = s.
Proof.
  induction s as [|c s IH]; simpl; [reflexivity|].
  destruct (Ascii.eqb_spec c new) as [->|Hnew]; [discriminate|].
  intros Hs. rewrite IH by assumption.
  destruct (Ascii.eqb_spec c old) as [->|Hold].
  - now rewrite Ascii.eqb_refl.
  - now rewrite (proj2 (Ascii.eqb_neq c new)).
Qed.

(** X6: every non-empty list of patterns without [/] and [+] can be written
    as a resource tag that holds no [*]: replace each [*] by [+] and join
    the patterns with [/]; [filter_repo] reads that tag back as the list. *)
Theorem patterns_round_trip (d : gmap string string) (key : string) (patterns : list string) :
  patterns <> [] ->
  Forall (fun pattern => PyStr.count "/" pattern = 0 /\ PyStr.count "+" pattern = 0)
         patterns ->
  patterns_of (<[key := encode_patterns patterns]> d) key = patterns
  /\ PyStr.count "*" (encode_patterns patterns) = 0.
Proof.
  intros Hne Hshape. apply Forall_and in Hshape as [Hslash Hplus]. split.
  - unfold patterns_of, encode_patterns. rewrite lookup_insert_eq. simpl default.
    change "/" with (String "/"%char "").
    rewrite replace_join by discriminate. rewrite map_map.
    rewrite (map_ext_Forall _ id), map_id.
    + now apply split_join.
    + eapply Forall_impl; [exact Hplus|]. intros pattern Hp. now apply replace_back.
  - unfold encode_patterns. clear Hne Hslash Hplus.
    induction patterns as [|pattern patterns IH]; [reflexivity|].
    assert (Happ : forall a b, PyStr.count "*" (a +:+ b)
                               = PyStr.count "*" a + PyStr.count "*" b).
    { intros a b. induction a as [|c a IHa]; simpl; [reflexivity|]. rewrite IHa. lia. }
    destruct patterns as [|pattern' patterns].
    + simpl. apply count_replace_old. discriminate.
    + change (PyStr.join "/" (map (PyStr.replace "*" "+") (pattern :: pattern' :: patterns)))
        with (PyStr.replace "*" "+" pattern
              +:+ "/" +:+ PyStr.join "/" (map (PyStr.replace "*" "+") (pattern' :: patterns))).
      rewrite !Happ, IH, count_replace_old by discriminate. reflexivity.
Qed.

Lemma patterns_round_trip_witness :
  encode_patterns ["3.*"; "edge"; "*-slim"] = "3.+/edge/+-slim"
  /\ patterns_of (<["upstream-tags" := (encode_patterns ["3.*"; "edge"; "*-slim"])]>
                    (tags_dict [ {| Key := "upstream-image"; Value := "library/alpine" |} ]))
                 "upstream-tags"
     = ["3.*"; "edge"; "*-slim"].
Proof.
  split; [reflexivity|].
  apply (patterns_round_trip _ "upstream-tags" ["3.*"; "edge"; "*-slim"]).
  - discriminate.
  - repeat constructor.
Defined.

Lemma fnmatch_star name : Fnmatch.fnmatch name "*" = true.
Proof.
  unfold Fnmatch.fnmatch. simpl.
  induction (String.list_ascii_of_string name) as [|c l IH]; simpl; [reflexivity|].
  now rewrite IH.
Qed.

(** X7: a repository whose [upstream-tags] tag is the single character [+]
    gets the include pattern [*], which matches every tag: its selection is
    the one of an empty include list, that is every listed tag that no
    exclude pattern matches. *)
Theorem plus_selects_all
    (repo : Repository) (tags : list TagItem) (image : string) :
  tags_dict tags !! "upstream-image" = Some image ->
  tags_dict tags !! "upstream-tags" = Some "+" ->
  exists mirrored,
    mirrored_repo repo tags = Some mirrored
    /\ upstream_tags mirrored = ["*"]
    /\ forall all_tags,
         select all_tags (upstream_tags mirrored) (ignore_tags mirrored)
         = select all_tags [] (ignore_tags mirrored).
Proof.
  intros Himage Htags. unfold mirrored_repo. rewrite Himage.
  eexists. split; [reflexivity|]. cbn [upstream_tags ignore_tags].
  assert (Hpat : patterns_of (tags_dict tags) "upstream-tags" = ["*"])
    by (unfold patterns_of; now rewrite Htags).
  rewrite Hpat. split; [reflexivity|].
  intros all_tags. unfold select. apply filter_ext. intros tag.
  unfold does_match. simpl. rewrite fnmatch_star. simpl.
  now destruct (existsb _ _).
Qed.

Lemma plus_selects_all_witness :
  exists mirrored,
    mirrored_repo {| repositoryArn := "arn:alpine"; repositoryUri := "123.dkr/alpine-mirror" |}
                  [ {| Key := "upstream-image"; Value := "library/alpine" |};
                    {| Key := "upstream-tags"; Value := "+" |};
                    {| Key := "ignore-tags"; Value := "3.9" |} ] = Some mirrored
    /\ upstream_tags mirrored = ["*"]
    /\ forall all_tags,
         select all_tags (upstream_tags mirrored) (ignore_tags mirrored)
         = select all_tags [] (ignore_tags mirrored).
Proof.
  apply (plus_selects_all _ _ "library/alpine"); vm_compute; reflexivity.
Defined.

Lemma tags_dict_snoc tags tag_item :
  tags_dict (tags ++ [tag_item]) = <[Key tag_item := Value tag_item]> (tags_dict tags).
Proof. unfold tags_dict. now rewrite foldl_app. Qed.

(** X8: the dictionary built from the resource tags gives a key the value
    of the last tag item with that key; when the keys are distinct (as they
    are in a resource's tags), a key has the value [v] in the dictionary
    exactly when the tag item with that key and value is among the tags. *)
Theorem tags_dict_lookup (tags : list TagItem) (key value : string) :
  NoDup (map Key tags) ->
  (tags_dict tags !! key = Some value
   <-> In {| Key := key; Value := value |} tags)
  /\ forall earlier later,
       ~ In key (map Key later) ->
       tags_dict (earlier ++ {| Key := key; Value := value |} :: later) !! key
       = Some value.
Proof.
  intros Hkeys. split.
  - induction tags as [|tag_item tags IH] using rev_ind.
    + split; [discriminate|contradiction].
    + rewrite map_app in Hkeys. apply NoDup_app in Hkeys as (Hkeys & Hfresh & _).
      rewrite tags_dict_snoc, lookup_insert, in_app_iff.
      destruct (decide (Key tag_item = key)) as [<-|Hne].
      * split.
        -- intros [= <-]. right. left. now destruct tag_item.
        -- intros [Hin|[Heq|[]]].
           ++ exfalso. eapply Hfresh; [|now left].
              apply list_elem_of_In. change (Key tag_item) with
                (Key {| Key := Key tag_item; Value := value |}). now apply in_map.
           ++ now rewrite Heq.
      * rewrite (IH Hkeys). split; [auto|].
        intros [Hin|[Heq|[]]]; [exact Hin|]. subst. now contradiction Hne.
  - clear Hkeys. intros earlier later.
    induction later as [|tag_item later IH] using rev_ind; intros Hlast.
    + rewrite tags_dict_snoc. simpl. apply lookup_insert_eq.
    + rewrite map_app, in_app_iff in Hlast.
      rewrite app_comm_cons, app_assoc, tags_dict_snoc, lookup_insert.
      destruct (decide (Key tag_item = key)) as [Heq|Hne].
      * exfalso. apply Hlast. right. left. exact Heq.
      * apply IH. tauto.
Qed.

Lemma tags_dict_lookup_witness :
  tags_dict [ {| Key := "team"; Value := "web" |};
              {| Key := "upstream-image"; Value := "library/nginx" |} ]
    !! "upstream-image" = Some "library/nginx".
Proof.
  apply (tags_dict_lookup [ {| Key := "team"; Value := "web" |};
                            {| Key := "upstream-image"; Value := "library/nginx" |} ]
           "upstream-image" "library/nginx").
  - apply (bool_decide_unpack _). vm_compute. exact I.
  - right. left. reflexivity.
Defined.

(** ** The copy orchestrator, once more *)



Section Run.

Variable skopeo : Skopeo.
Variable ctx : Context.


Variable listing : MirroredRepo -> list string.


End Run.



(** ** Discovery and the commands, once more *)

(** The pool of discovery looks up the repositories of [looked_up] and
    leaves each answer in its future. *)
Lemma pool_map_filter_repo_futures client repositories t :
  pool_map (filter_repo client) repositories t
  = (Ok (map (filter_repo_future client) repositories),
     t ++ map (fun repo => ListTagsForResource (repositoryArn repo)) repositories).
Proof.
  revert t. induction repositories as [|repo repositories IH]; intros t; simpl.
  - unfold ret. now rewrite app_nil_r.
  - unfold filter_repo at 1, filter_repo_future at 1, bind, call, ret.
    destruct (list_tags_for_resource client (repositoryArn repo));
      rewrite IH, <- app_assoc; reflexivity.
Qed.

Lemma pool_results_filter_repo_futures ahead client repositories t :
  pool_results ahead (filter_repo client) repositories t
  = (Ok (map (filter_repo_future client) (looked_up ahead client repositories)),
     t ++ map (fun repo => ListTagsForResource (repositoryArn repo))
              (looked_up ahead client repositories)).
Proof.
  revert t. induction repositories as [|repo repositories IH]; intros t; simpl.
  - unfold ret. now rewrite app_nil_r.
  - unfold filter_repo at 1, filter_repo_future at 1 3 4, bind, call, ret.
    destruct (list_tags_for_resource client (repositoryArn repo)).
    + rewrite IH, <- app_assoc. reflexivity.
    + rewrite pool_map_filter_repo_futures, <- app_assoc. reflexivity.
Qed.

(** The tasks that run when the first lookup to fail is the one of [repo]. *)
Lemma looked_up_failure ahead client before repo after e :
  Forall (fun repo' => exists tags,
            list_tags_for_resource client (repositoryArn repo') = Ok tags) before ->
  list_tags_for_resource client (repositoryArn repo) = Raise e ->
  looked_up ahead client (before ++ repo :: after) = before ++ repo :: firstn ahead after.
Proof.
  intros Hbefore Hrepo.
  induction Hbefore as [|repo' before [tags Htags] _ IH]; simpl.
  - unfold filter_repo_future. now rewrite Hrepo.
  - unfold filter_repo_future at 1. now rewrite Htags, IH.
Qed.

Lemma collect_first_failure before e after :
  Forall (fun future => exists item, future = Ok item) before ->
  collect (before ++ Raise e :: after) = Raise e.
Proof.
  induction 1 as [|future before [item ->] _ IH]; simpl; [reflexivity|].
  now rewrite IH.
Qed.

Lemma filter_repo_future_ok client repositories :
  Forall (fun repo => exists tags,
            list_tags_for_resource client (repositoryArn repo) = Ok tags) repositories ->
  Forall (fun future => exists item, future = Ok item)
         (map (filter_repo_future client) repositories).
Proof.
  induction 1 as [|repo repositories [tags Htags] _ IH]; simpl; constructor;
    [|exact IH].
  unfold filter_repo_future. rewrite Htags. eauto.
Qed.

(** X10: when the tag lookup of a repository of the listing fails,
    discovery raises the exception of the first such repository.  By then
    the lookups made are those of the repositories up to that one and of the
    ones after it that the workers of the pool had already started; the
    lookups still pending are cancelled.  No descriptor is returned, also
    not those of the repositories before it, and [sync] ends there, before
    the login and before any [skopeo] command. *)
Theorem discovery_lookup_failure
    (skopeo : Skopeo) (ahead : nat) (ctx : Context) (pages : list (list Repository))
    (before after : list Repository) (repo : Repository) (e : exn) (t : list event) :
  describe_repositories (client ctx) (registry_id ctx) = Ok pages ->
  concat pages = before ++ repo :: after ->
  Forall (fun repo' => exists tags,
            list_tags_for_resource (client ctx) (repositoryArn repo') = Ok tags) before ->
  list_tags_for_resource (client ctx) (repositoryArn repo) = Raise e ->
  let t' := t ++ DescribeRepositories (registry_id ctx)
              :: map (fun repo' => ListTagsForResource (repositoryArn repo'))
                     (before ++ repo :: firstn ahead after) in
  find_repositories ahead (client ctx) (registry_id ctx) t = (Raise e, t')
  /\ sync skopeo ahead ctx t = (Raise e, t').
Proof.
  intros Hpages Hsplit Hbefore Hrepo t'.
  assert (Hfind : find_repositories ahead (client ctx) (registry_id ctx) t
                  = (Raise e, t')).
  { unfold find_repositories, bind, call. rewrite Hpages.
    rewrite pool_results_filter_repo_futures, Hsplit.
    rewrite (looked_up_failure ahead (client ctx) before repo after e)
      by assumption.
    subst t'. rewrite <- app_assoc. f_equal.
    rewrite map_app. simpl. unfold filter_repo_future at 2. rewrite Hrepo.
    apply collect_first_failure. now apply filter_repo_future_ok. }
  split; [exact Hfind|]. unfold sync, bind. now rewrite Hfind.
Qed.

Lemma discovery_lookup_failure_witness :
  sync sample_skopeo 8 wide_ctx []
  = (Raise (OtherError "AccessDenied"),
     [DescribeRepositories "123";
      ListTagsForResource "arn:r0";
      ListTagsForResource "arn:r1";
      ListTagsForResource "arn:r2";
      ListTagsForResource "arn:r3";
      ListTagsForResource "arn:r4";
      ListTagsForResource "arn:r5";
      ListTagsForResource "arn:r6";
      ListTagsForResource "arn:r7";
      ListTagsForResource "arn:r8";
      ListTagsForResource "arn:r9"]).
Proof.
  apply (discovery_lookup_failure sample_skopeo 8 wide_ctx [wide_repositories]
           (firstn 1 wide_repositories) (skipn 2 wide_repositories)
           {| repositoryArn := "arn:r1"; repositoryUri := "123.dkr/r1" |}
           (OtherError "AccessDenied") []).
  - reflexivity.
  - reflexivity.
  - repeat constructor. eexists. reflexivity.
  - reflexivity.
Defined.

(** X11: when the login fails, [copy_repositories] raises its exception
    and has done nothing but ask for the token: no tag listing is queried
    and no copy is run.  In [sync] that happens after discovery has
    succeeded, and in [copy] right after the source is unpacked. *)
Theorem login_failure_is_fatal
    (skopeo : Skopeo) (ahead : nat) (ctx : Context) (e : exn) :
  get_authorization_token (client ctx) [registry_id ctx] = Raise e ->
  (forall repositories t,
     copy_repositories skopeo ctx (client ctx) (registry_id ctx) repositories t
     = (Raise e, t ++ [GetAuthorizationToken [registry_id ctx]]))
  /\ (forall found t t',
        find_repositories ahead (client ctx) (registry_id ctx) t = (Ok found, t') ->
        sync skopeo ahead ctx t
        = (Raise e, t' ++ [GetAuthorizationToken [registry_id ctx]]))
  /\ (forall image tag destination_repository t,
        PyStr.count ":" image = 0 -> PyStr.count ":" tag = 0 ->
        copy skopeo ctx (image +:+ ":" +:+ tag) destination_repository t
        = (Raise e, t ++ [GetAuthorizationToken [registry_id ctx]])).
Proof.
  intros Hlogin.
  assert (Hrun : forall repositories t,
            copy_repositories skopeo ctx (client ctx) (registry_id ctx) repositories t
            = (Raise e, t ++ [GetAuthorizationToken [registry_id ctx]])).
  { intros repositories t. unfold copy_repositories, ecr_login, bind, call.
    now rewrite Hlogin. }
  split; [exact Hrun|]. split.
  - intros found t t' Hfound. unfold sync, bind. rewrite Hfound. apply Hrun.
  - intros image tag destination_repository t Himage Htag. unfold copy.
    change (image +:+ ":" +:+ tag) with (image +:+ String ":" tag).
    rewrite split_two by assumption. apply Hrun.
Qed.

Lemma login_failure_is_fatal_witness :
  sync sample_skopeo 8 locked_ctx []
  = (Raise (OtherError "AccessDenied"),
     [DescribeRepositories "123";
      ListTagsForResource "arn:alpine";
      ListTagsForResource "arn:scratch";
      ListTagsForResource "arn:nginx";
      GetAuthorizationToken ["123"]]).
Proof.
  destruct (login_failure_is_fatal sample_skopeo 8 locked_ctx (OtherError "AccessDenied")
              eq_refl) as (_ & Hsync & _).
  eapply (Hsync _ []
                [DescribeRepositories "123";
                 ListTagsForResource "arn:alpine";
                 ListTagsForResource "arn:scratch";
                 ListTagsForResource "arn:nginx"]).
  vm_compute. reflexivity.
Defined.





(** ** The [list_repos] command *)

Lemma mirrored_repo_include_nonempty repo tags mirrored :
  mirrored_repo repo tags = Some mirrored -> upstream_tags mirrored <> [].
Proof.
  unfold mirrored_repo.
  destruct (tags_dict tags !! "upstream-image"); [|discriminate].
  intros [= <-]. cbn [upstream_tags]. unfold patterns_of. intros Hnil.
  pose proof (split_length "/" (PyStr.replace "+" "*"
                (default "" (tags_dict tags !! "upstream-tags")))) as Hlen.
  rewrite Hnil in Hlen. discriminate.
Qed.

Lemma echo_repo_lines repo t :
  upstream_tags repo <> [] -> echo_repo repo t = (Ok tt, t ++ repo_lines repo).
Proof.
  intros Hne. unfold echo_repo, bind, secho, emit, repo_lines.
  destruct (upstream_tags repo); [contradiction|].
  now rewrite <- !app_assoc.
Qed.

Lemma echo_repos_collect client repositories found t :
  collect (map (filter_repo_future client) repositories) = Ok found ->
  echo_repos (map (filter_repo_future client) repositories) t
  = (Ok tt, t ++ flat_map repo_lines found).
Proof.
  revert found t. induction repositories as [|repo repositories IH]; intros found t; simpl.
  - intros [= <-]. unfold ret. now rewrite app_nil_r.
  - unfold filter_repo_future at 1 3.
    destruct (list_tags_for_resource client (repositoryArn repo)) as [tags|e];
      [|discriminate].
    destruct (collect (map (filter_repo_future client) repositories))
      as [items|e]; [|discriminate].
    destruct (mirrored_repo repo tags) as [mirrored|] eqn:Hrepo; intros [= <-].
    + unfold bind. rewrite echo_repo_lines
        by (eapply mirrored_repo_include_nonempty; exact Hrepo).
      rewrite (IH items) by reflexivity. simpl flat_map. now rewrite <- app_assoc.
    + now apply IH.
Qed.

(** X13: [list_repos] prints what [sync] would mirror: when discovery,
    started after the heading is printed, returns the descriptors [found],
    [list_repos] returns with the same calls made and, for each descriptor
    of [found] in order, three lines printed: the upstream image, the mirror
    and the include patterns.  The test [if repo.upstream_tags] never skips
    the third line, since a discovered descriptor has a pattern. *)
Theorem list_repos_prints_found
    (ahead : nat) (ctx : Context) (found : list MirroredRepo) (t t' : list event) :
  find_repositories ahead (client ctx) (registry_id ctx)
                    (t ++ [Echo "Repositories to mirror:"])
  = (Ok found, t') ->
  list_repos ahead ctx t = (Ok tt, t' ++ flat_map repo_lines found).
Proof.
  unfold find_repositories, list_repos, bind, call, emit.
  destruct (describe_repositories (client ctx) (registry_id ctx)) as [pages|e];
    [|discriminate].
  rewrite !pool_results_filter_repo_futures. intros [= Hfound <-].
  now apply echo_repos_collect.
Qed.

Lemma list_repos_prints_found_witness :
  list_repos 8 sample_ctx []
  = (Ok tt,
     [Echo "Repositories to mirror:";
      DescribeRepositories "123";
      ListTagsForResource "arn:alpine";
      ListTagsForResource "arn:scratch";
      ListTagsForResource "arn:nginx";
      Echo (style green "- upstream: library/alpine");
      Echo (style red "  mirror: 123.dkr/alpine-mirror");
      Echo (style yellow "  tags: ['3.*']");
      Echo (style green "- upstream: library/nginx");
      Echo (style red "  mirror: 123.dkr/nginx-mirror");
      Echo (style yellow "  tags: ['']")]).
Proof.
  apply (list_repos_prints_found 8 sample_ctx
           [ {| upstream_image := "library/alpine";
                repository_uri := "123.dkr/alpine-mirror";
                upstream_tags := ["3.*"];
                ignore_tags := ["3.9"] |};
             {| upstream_image := "library/nginx";
                repository_uri := "123.dkr/nginx-mirror";
                upstream_tags := [""];
                ignore_tags := [""] |} ]
           []
           [Echo "Repositories to mirror:";
            DescribeRepositories "123";
            ListTagsForResource "arn:alpine";
            ListTagsForResource "arn:scratch";
            ListTagsForResource "arn:nginx"]).
  vm_compute. reflexivity.
Defined.

Lemma echo_repos_listing futures t :
  exists evs, (echo_repos futures t).2 = t ++ evs
              /\ forallb is_listing_event evs = true.
Proof.
  revert t. induction futures as [|future futures IH]; intros t; simpl.
  - exists []. now rewrite app_nil_r.
  - destruct future as [[repo|]|e].
    + unfold bind, echo_repo, bind, secho, emit.
      destruct (upstream_tags repo); unfold ret; cbn [fst snd];
        match goal with |- context [echo_repos futures ?t1] =>
          destruct (IH t1) as (evs & -> & Hevs) end;
        eexists; (split; [rewrite <- !app_assoc; reflexivity|]); exact Hevs.
    + apply IH.
    + exists []. unfold raise. now rewrite app_nil_r.
Qed.

(** X14: whatever the registry answers, [list_repos] only prints and calls
    the two operations of discovery: it never asks for an authorization
    token, never runs a command and never sleeps. *)
Theorem list_repos_only_lists (ahead : nat) (ctx : Context) (t : list event) :
  exists evs,
    (list_repos ahead ctx t).2 = t ++ evs
    /\ forallb is_listing_event evs = true
    /\ commands evs = [].
Proof.
  assert (Hno : forall evs, forallb is_listing_event evs = true -> commands evs = []).
  { induction evs as [|ev evs IH]; [reflexivity|]. simpl.
    intros [Hev Hevs]%andb_prop. destruct ev; try discriminate; now apply IH. }
  enough (exists evs, (list_repos ahead ctx t).2 = t ++ evs
                      /\ forallb is_listing_event evs = true)
    as (evs & Hrun & Hevs) by (exists evs; auto).
  unfold list_repos, bind, call, emit.
  destruct (describe_repositories (client ctx) (registry_id ctx)) as [pages|e].
  - rewrite pool_results_filter_repo_futures.
    match goal with |- context [echo_repos ?futures ?t1] =>
      destruct (echo_repos_listing futures t1) as (evs & -> & Hevs) end.
    eexists. split; [rewrite <- !app_assoc; reflexivity|].
    simpl. rewrite forallb_app, Hevs, andb_true_r.
    induction (looked_up ahead (client ctx) (concat pages)) as [|repo l IH];
      [reflexivity|exact IH].
  - eexists. split; [cbn [snd]; rewrite <- app_assoc; reflexivity|]. reflexivity.
Qed.

Lemma echo_repos_until_failure client tags_of before e rest t :
  (forall repo, In repo before ->
     list_tags_for_resource client (repositoryArn repo) = Ok (tags_of repo)) ->
  echo_repos (map (filter_repo_future client) before ++ Raise e :: rest) t
  = (Raise e,
     t ++ flat_map repo_lines (omap (fun repo => mirrored_repo repo (tags_of repo)) before)).
Proof.
  revert t. induction before as [|repo before IH]; intros t Htags; simpl.
  - unfold raise. now rewrite app_nil_r.
  - unfold filter_repo_future at 1. rewrite (Htags repo) by (now left).
    assert (Hrest : forall repo', In repo' before ->
              list_tags_for_resource client (repositoryArn repo') = Ok (tags_of repo'))
      by (intros repo' Hin; apply Htags; now right).
    destruct (mirrored_repo repo (tags_of repo)) as [mirrored|] eqn:Hrepo.
    + unfold bind. rewrite echo_repo_lines
        by (eapply mirrored_repo_include_nonempty; exact Hrepo).
      rewrite IH by exact Hrest. simpl flat_map. now rewrite <- app_assoc.
    + now apply IH.
Qed.

Lemma lookups_app t1 t2 : lookups (t1 ++ t2) = lookups t1 ++ lookups t2.
Proof. apply omap_app. Qed.

Lemma lookups_of_lookups (repositories : list Repository) :
  lookups (map (fun repo => ListTagsForResource (repositoryArn repo)) repositories)
  = map repositoryArn repositories.
Proof.
  induction repositories as [|repo repositories IH]; simpl; [reflexivity|].
  now rewrite <- IH.
Qed.

Lemma echoes_of_lookups (repositories : list Repository) :
  echoes (map (fun repo => ListTagsForResource (repositoryArn repo)) repositories) = [].
Proof. induction repositories as [|repo repositories IH]; [reflexivity|exact IH]. Qed.

Lemma lookups_of_lines (found : list MirroredRepo) :
  lookups (flat_map repo_lines found) = [].
Proof. induction found as [|repo found IH]; [reflexivity|exact IH]. Qed.

(** X15: when the tag lookup of a repository of the listing fails,
    [list_repos] raises the exception of the first such repository.  What
    it has printed by then is the heading and the lines of the descriptors
    found among the repositories before that one in the listing, and nothing
    for the repositories after it; the lookups made are those of the
    repositories up to the failing one and of the ones after it that the
    workers of the pool had already started. *)
Theorem list_repos_lookup_failure
    (ahead : nat) (ctx : Context) (pages : list (list Repository))
    (tags_of : Repository -> list TagItem)
    (before after : list Repository) (repo : Repository) (e : exn) (t : list event) :
  describe_repositories (client ctx) (registry_id ctx) = Ok pages ->
  concat pages = before ++ repo :: after ->
  (forall repo', In repo' before ->
     list_tags_for_resource (client ctx) (repositoryArn repo') = Ok (tags_of repo')) ->
  list_tags_for_resource (client ctx) (repositoryArn repo) = Raise e ->
  exists evs,
    list_repos ahead ctx t = (Raise e, t ++ evs)
    /\ echoes evs
       = "Repositories to mirror:"
         :: echoes (flat_map repo_lines
                      (omap (fun repo' => mirrored_repo repo' (tags_of repo')) before))
    /\ lookups evs = map repositoryArn (before ++ repo :: firstn ahead after).
Proof.
  intros Hpages Hsplit Hbefore Hrepo.
  assert (Hok : Forall (fun repo' => exists tags,
                          list_tags_for_resource (client ctx) (repositoryArn repo')
                          = Ok tags) before).
  { apply Forall_forall. intros repo' Hin%list_elem_of_In. eauto. }
  unfold list_repos, bind, call, emit. rewrite Hpages.
  rewrite pool_results_filter_repo_futures, Hsplit.
  rewrite (looked_up_failure ahead (client ctx) before repo after e) by assumption.
  replace (map (filter_repo_future (client ctx)) (before ++ repo :: firstn ahead after))
    with (map (filter_repo_future (client ctx)) before
          ++ Raise e :: map (filter_repo_future (client ctx)) (firstn ahead after)).
  2: { rewrite map_app. simpl. do 2 f_equal.
       unfold filter_repo_future. now rewrite Hrepo. }
  rewrite (echo_repos_until_failure (client ctx) tags_of) by exact Hbefore.
  eexists. split; [rewrite <- !app_assoc; reflexivity|]. split.
  - simpl. now rewrite echoes_app, echoes_of_lookups.
  - simpl. now rewrite lookups_app, lookups_of_lookups, lookups_of_lines, app_nil_r.
Qed.

Lemma list_repos_lookup_failure_witness :
  exists evs,
    list_repos 8 wide_ctx [] = (Raise (OtherError "AccessDenied"), [] ++ evs)
    /\ echoes evs
       = [ "Repositories to mirror:";
           style green "- upstream: library/alpine";
           style red "  mirror: 123.dkr/r0";
           style yellow "  tags: ['3.*']" ]
    /\ lookups evs
       = ["arn:r0"; "arn:r1"; "arn:r2"; "arn:r3"; "arn:r4"; "arn:r5"; "arn:r6";
          "arn:r7"; "arn:r8"; "arn:r9"].
Proof.
  apply (list_repos_lookup_failure 8 wide_ctx [wide_repositories] wide_tags
           (firstn 1 wide_repositories) (skipn 2 wide_repositories)
           {| repositoryArn := "arn:r1"; repositoryUri := "123.dkr/r1" |}
           (OtherError "AccessDenied") []).
  - reflexivity.
  - reflexivity.
  - intros repo' [<-|[]]. reflexivity.
  - reflexivity.
Defined.
